(** * reformer-fastai: byte tokenizer and basic transformer

    A shallow embedding of [basic_tokenizers.py] and [basic_transformer.py].

    - [Tokenizer]: [ByteTextTokenizer] over code points and bytes, together
      with the UTF-8 codec of the Python runtime it calls.
    - [Attn]: [Attention.forward] and [FeedForward] on real-valued tensors.
      Floating-point numbers are idealised as real numbers; tensors are
      index functions together with their shape.
    - [Net]: module construction ([__init__]) as a state-and-exception
      computation over Python objects (attribute dictionaries, parameter
      storage locations), and the forward passes of the full models tracked
      on tensor shapes and raised exceptions. *)

From Stdlib Require Import ZArith List Lia Reals Lra Bool.
From stdpp Require Import base gmap strings.
Import ListNotations.

Set Warnings "-register-all".

(** ** Exceptions and results *)

Inductive exn :=
  | UnicodeEncodeError
  | StructError
  | AttributeError
  | NotImplementedError
  | IndexError
  | ValueError
  | RuntimeError
  | EinopsError
  | ZeroDivisionError
  | TypeError.

Inductive result (A : Type) :=
  | Ok (a : A)
  | Raise (e : exn).
Arguments Ok {A} a.
Arguments Raise {A} e.

Definition rbind {A B} (m : result A) (k : A -> result B) : result B :=
  match m with
  | Ok a => k a
  | Raise e => Raise e
  end.

#[export] Instance result_ret : MRet result := fun A a => Ok a.
#[export] Instance result_bind : MBind result := fun A B k m => rbind m k.

Fixpoint rmap {A B} (f : A -> result B) (l : list A) : result (list B) :=
  match l with
  | [] => Ok []
  | a :: l' =>
      match f a with
      | Ok b => match rmap f l' with
                | Ok bs => Ok (b :: bs)
                | Raise e => Raise e
                end
      | Raise e => Raise e
      end
  end.

(** ** basic_tokenizers.py *)

Module Tokenizer.
Local Open Scope Z_scope.

(** A Python [str] is a sequence of code points; [bytes] is a sequence of
    integers in [0, 256). *)
Definition pystr := list Z.
Definition pybytes := list Z.

Definition is_byte (b : Z) : Prop := 0 <= b < 256.
Definition is_code_point (c : Z) : Prop := 0 <= c <= 0x10FFFF.
Definition is_surrogate (c : Z) : bool := (0xD800 <=? c) && (c <=? 0xDFFF).

(** A valid unicode string: code points, none of them a surrogate. *)
Definition valid_unicode (s : pystr) : Prop :=
  List.Forall (fun c => is_code_point c /\ is_surrogate c = false) s.

(** *** The runtime's UTF-8 codec *)

(** [str.encode("utf-8")] on one code point (strict error handling). *)
Definition utf8_encode_char (c : Z) : result pybytes :=
  if c <? 0x80 then Ok [c]
  else if c <? 0x800 then
    Ok [Z.lor 0xC0 (Z.shiftr c 6); Z.lor 0x80 (Z.land c 0x3F)]
  else if c <? 0x10000 then
    if is_surrogate c then Raise UnicodeEncodeError
    else Ok [Z.lor 0xE0 (Z.shiftr c 12);
             Z.lor 0x80 (Z.land (Z.shiftr c 6) 0x3F);
             Z.lor 0x80 (Z.land c 0x3F)]
  else
    Ok [Z.lor 0xF0 (Z.shiftr c 18);
        Z.lor 0x80 (Z.land (Z.shiftr c 12) 0x3F);
        Z.lor 0x80 (Z.land (Z.shiftr c 6) 0x3F);
        Z.lor 0x80 (Z.land c 0x3F)].

Fixpoint utf8_encode (s : pystr) : result pybytes :=
  match s with
  | [] => Ok []
  | c :: s' =>
      match utf8_encode_char c with
      | Ok bs => match utf8_encode s' with
                 | Ok rest => Ok (bs ++ rest)
                 | Raise e => Raise e
                 end
      | Raise e => Raise e
      end
  end.

Definition is_continuation_byte (ch : Z) : bool := (0x80 <=? ch) && (ch <? 0xC0).

(** U+FFFD, emitted by the "replace" error handler. *)
Definition REPLACEMENT : Z := 0xFFFD.

(** [bytes.decode("utf-8", "replace")]: the decoder of the runtime, which
    emits one replacement character per maximal invalid prefix and resumes
    right after it. *)
Fixpoint utf8_decode_replace (bs : pybytes) : pystr :=
  match bs with
  | [] => []
  | ch :: r1 =>
    if ch <? 0x80 then ch :: utf8_decode_replace r1
    else if ch <? 0xE0 then
      if ch <? 0xC2 then REPLACEMENT :: utf8_decode_replace r1
      else
        match r1 with
        | [] => [REPLACEMENT]
        | ch2 :: r2 =>
          if negb (is_continuation_byte ch2)
          then REPLACEMENT :: utf8_decode_replace r1
          else (Z.shiftl ch 6 + ch2 - (Z.shiftl 0xC0 6 + 0x80))
                 :: utf8_decode_replace r2
        end
    else if ch <? 0xF0 then
      match r1 with
      | [] => [REPLACEMENT]
      | ch2 :: r2 =>
        if negb (is_continuation_byte ch2)
           || (if ch2 <? 0xA0 then ch =? 0xE0 else ch =? 0xED)
        then REPLACEMENT :: utf8_decode_replace r1
        else
          match r2 with
          | [] => [REPLACEMENT]
          | ch3 :: r3 =>
            if negb (is_continuation_byte ch3)
            then REPLACEMENT :: utf8_decode_replace r2
            else (Z.shiftl ch 12 + Z.shiftl ch2 6 + ch3
                  - (Z.shiftl 0xE0 12 + Z.shiftl 0x80 6 + 0x80))
                   :: utf8_decode_replace r3
          end
      end
    else if ch <? 0xF5 then
      match r1 with
      | [] => [REPLACEMENT]
      | ch2 :: r2 =>
        if negb (is_continuation_byte ch2)
           || (if ch2 <? 0x90 then ch =? 0xF0 else ch =? 0xF4)
        then REPLACEMENT :: utf8_decode_replace r1
        else
          match r2 with
          | [] => [REPLACEMENT]
          | ch3 :: r3 =>
            if negb (is_continuation_byte ch3)
            then REPLACEMENT :: utf8_decode_replace r2
            else
              match r3 with
              | [] => [REPLACEMENT]
              | ch4 :: r4 =>
                if negb (is_continuation_byte ch4)
                then REPLACEMENT :: utf8_decode_replace r3
                else (Z.shiftl ch 18 + Z.shiftl ch2 12 + Z.shiftl ch3 6 + ch4
                      - (Z.shiftl 0xF0 18 + Z.shiftl 0x80 12
                         + Z.shiftl 0x80 6 + 0x80))
                       :: utf8_decode_replace r4
              end
          end
      end
    else REPLACEMENT :: utf8_decode_replace r1
  end.

(** [bytes(rtok, 'ascii')] for the ASCII literals of the source. *)
Definition ascii_bytes (s : string) : pybytes :=
  List.map (fun a => Z.of_N (Ascii.N_of_ascii a)) (String.list_ascii_of_string s).

(** [six.int2byte], i.e. [struct.Struct(">B").pack]. *)
Definition int2byte (n : Z) : result pybytes :=
  if (0 <=? n) && (n <? 256) then Ok [n] else Raise StructError.

(** *** ByteTextTokenizer *)

Record ByteTextTokenizer := {
  ls_lm : bool;
  add_bos : bool;
  add_eos : bool
}.

(** [__init__(self, is_lm=True, add_bos=False, add_eos=False)] *)
Definition init (is_lm add_bos add_eos : bool) : ByteTextTokenizer :=
  {| ls_lm := is_lm; add_bos := add_bos; add_eos := add_eos |}.

Definition default_tokenizer : ByteTextTokenizer := init true false false.

Definition pad_token : string := "<pad>".
Definition eos_token : string := "<eos>".
Definition bos_token : string := "<bos>".
Definition pad_token_id : Z := 0.
Definition eos_token_id : Z := 1.
Definition bos_token_id : Z := 2.
Definition reserved_toks : list string := [pad_token; eos_token; bos_token].
Definition reserved_tokens_bytes : list pybytes := List.map ascii_bytes reserved_toks.
Definition numres : Z := Z.of_nat (List.length reserved_toks).

Definition vocab_size : Z := 2 ^ 8 + numres.

(** The two tensor classes the encoder returns; both wrap the id list. *)
Inductive text_tensor :=
  | LMTensorText (ids : list Z)
  | TensorText (ids : list Z).

Definition tolist (t : text_tensor) : list Z :=
  match t with LMTensorText l => l | TensorText l => l end.

(** [__call__(self, o:str)] *)
Definition call_str (self : ByteTextTokenizer) (o : pystr) : result text_tensor :=
  match utf8_encode o with
  | Raise e => Raise e
  | Ok bytes =>
      let out := List.map (fun c => c + numres) bytes in
      let out := if add_bos self then [bos_token_id] ++ out else out in
      let out := if add_eos self then out ++ [eos_token_id] else out in
      if ls_lm self then Ok (LMTensorText out) else Ok (TensorText out)
  end.

(** [__call__(self, o:list)]: the strings of the list are encoded one after
    the other into a single flat id list. *)
Definition call_list (self : ByteTextTokenizer) (o : list pystr) : result text_tensor :=
  match rmap utf8_encode o with
  | Raise e => Raise e
  | Ok bss =>
      let out := List.map (fun c => c + numres) (List.concat bss) in
      let out := if add_bos self then [bos_token_id] ++ out else out in
      let out := if add_eos self then out ++ [eos_token_id] else out in
      if ls_lm self then Ok (LMTensorText out) else Ok (TensorText out)
  end.

(** [encodes(self, o)] *)
Definition encodes (self : ByteTextTokenizer) (o : pystr) : result text_tensor :=
  call_str self o.

(** The loop body of [decodes]: one id to the bytes it stands for. *)
Definition decode_id (id_ : Z) : result pybytes :=
  if (0 <=? id_) && (id_ <? numres)
  then Ok (List.nth (Z.to_nat id_) reserved_tokens_bytes [])
  else int2byte (id_ - numres).

(** [decodes(self, o:list)] *)
Definition decodes_list (self : ByteTextTokenizer) (o : list Z) : result pystr :=
  match rmap decode_id o with
  | Raise e => Raise e
  | Ok decoded_ids => Ok (utf8_decode_replace (List.concat decoded_ids))
  end.

(** [decodes(self, o:TensorText)] and [decodes(self, o:LMTensorText)] *)
Definition decodes (self : ByteTextTokenizer) (o : text_tensor) : result pystr :=
  decodes_list self (tolist o).

(** An id of the vocabulary: [0 <= id < vocab_size]. *)
Definition is_vocab_id (id_ : Z) : bool := (0 <=? id_) && (id_ <? vocab_size).

(** The code points of an ASCII literal. *)
Definition text (s : string) : pystr := ascii_bytes s.

End Tokenizer.


(** ** basic_transformer.py: numeric layers *)

(** [exists] and [default] of the helpers section.  [default val d] returns
    [val] unless it is [None]; then it returns [d], or [d()] when [d] is a
    function.  The three forms below are the three ways it is called: with
    a [d] that may itself be [None], with a [d] that is a tensor, and with
    a lambda. *)
Definition exists_ {A} (val : option A) : bool :=
  match val with Some _ => true | None => false end.

Definition default {A} (val : option A) (d : option A) : option A :=
  match val with Some v => Some v | None => d end.

Definition default_some {A} (val : option A) (d : A) : A :=
  match val with Some v => v | None => d end.

Definition default_lazy {A} (val : option A) (d : unit -> A) : A :=
  match val with Some v => v | None => d tt end.

Module Attn.
Local Open Scope R_scope.

(** *** Tensors

    A dense tensor is its shape together with its entries as a function of
    the indices.  Entries outside the shape are never read by the layers
    below. *)

Record tensor3 := T3 {
  B3 : nat; N3 : nat; D3 : nat;
  at3 : nat -> nat -> nat -> R
}.

Record tensor4 := T4 {
  B4 : nat; H4 : nat; I4 : nat; J4 : nat;
  at4 : nat -> nat -> nat -> nat -> R
}.

(** Boolean mask of shape (batch, sequence). *)
Record mask2 := M2 {
  MB : nat; MN : nat;
  mat2 : nat -> nat -> bool
}.

(** Boolean mask of shape (batch, 1, i, j). *)
Record mask4 := M4 {
  M4B : nat; M4I : nat; M4J : nat;
  mat4 : nat -> nat -> nat -> bool
}.

Definition shape3 (t : tensor3) : nat * nat * nat := (B3 t, N3 t, D3 t).
Definition shape4 (t : tensor4) : nat * nat * nat * nat := (B4 t, H4 t, I4 t, J4 t).

(** [sum_n n f] is f 0 + ... + f (n-1). *)
Fixpoint sum_n (n : nat) (f : nat -> R) : R :=
  match n with
  | O => 0
  | S k => sum_n k f + f k
  end.

(** Broadcasting of the tensor runtime: two sizes are compatible when they
    are equal or one of them is 1; a size-1 dimension is read at index 0. *)
Definition bcast_ok (a b : nat) : bool :=
  Nat.eqb a b || Nat.eqb a 1 || Nat.eqb b 1.
Definition bcast (a b : nat) : nat := if Nat.eqb a 1 then b else a.
Definition bidx (size i : nat) : nat := if Nat.eqb size 1 then O else i.

(** In-place operations cannot grow their target: the operand must be
    broadcastable to the target's size. *)
Definition bcast_to (a target : nat) : bool := Nat.eqb a target || Nat.eqb a 1.

(** *** nn.Linear *)

Record Linear := mkLinear {
  in_features : nat;
  out_features : nat;
  weight : nat -> nat -> R;          (* out_features x in_features *)
  bias : option (nat -> R)
}.

Definition Linear_forward (l : Linear) (x : tensor3) : result tensor3 :=
  if Nat.eqb (D3 x) (in_features l) then
    Ok (T3 (B3 x) (N3 x) (out_features l)
          (fun b n o =>
             sum_n (in_features l) (fun i => at3 x b n i * weight l o i)
             + match bias l with Some c => c o | None => 0 end))
  else Raise RuntimeError.

(** *** Attention *)

Definition MASK_VAL : R := - 1e4.

Record Attention := mkAttention {
  causal : bool;
  store_attention : bool;
  heads : nat;
  scale : R;
  to_q : Linear;
  to_kv : Linear;
  dropout : R;
  to_out : Linear
}.

(** The parameters drawn by the [nn.Linear] constructors. *)
Record AttentionParams := {
  Wq : nat -> nat -> R;
  Wkv : nat -> nat -> R;
  Wout : nat -> nat -> R;
  bout : nat -> R
}.

(** [Attention.__init__(dim, heads=8, causal=False, mask=None, dropout=0.1,
    store_attention=False)].  [dim ** -0.5] raises for [dim = 0]. *)
Definition Attention_init (dim heads : nat) (causal : bool) (dropout : R)
    (store_attention : bool) (p : AttentionParams) : result Attention :=
  if Nat.eqb dim 0 then Raise ZeroDivisionError
  else
    Ok {| causal := causal;
          store_attention := store_attention;
          heads := heads;
          scale := Rpower (INR dim) (- 0.5);
          to_q := mkLinear dim dim (Wq p) None;
          to_kv := mkLinear dim (dim * 2) (Wkv p) None;
          dropout := dropout;
          to_out := mkLinear dim dim (Wout p) (Some (bout p)) |}.

(** [t.chunk(2, dim = -1)], unpacked into exactly two tensors. *)
Definition chunk2 (t : tensor3) : result (tensor3 * tensor3) :=
  let c := Nat.div (D3 t + 1) 2 in
  if Nat.ltb (D3 t) 2 then Raise ValueError
  else Ok (T3 (B3 t) (N3 t) c (at3 t),
           T3 (B3 t) (N3 t) (D3 t - c) (fun b n d => at3 t b n (c + d)%nat)).

(** [rearrange(t, 'b n (h d) -> b h n d', h = h)].  With h = 0 the
    divisibility test of the last axis by h is itself a division by zero,
    raised as it is; a head count that does not divide the axis is reported
    by the rearrangement. *)
Definition split_heads (h : nat) (t : tensor3) : result tensor4 :=
  if Nat.eqb h 0 then Raise ZeroDivisionError
  else if negb (Nat.eqb (Nat.modulo (D3 t) h) 0) then Raise EinopsError
  else
    let d := Nat.div (D3 t) h in
    Ok (T4 (B3 t) h (N3 t) d (fun b hh n dd => at3 t b n (hh * d + dd)%nat)).

(** [rearrange(out, 'b h n d -> b n (h d)')] *)
Definition merge_heads (t : tensor4) : tensor3 :=
  T3 (B4 t) (I4 t) (H4 t * J4 t)
     (fun b n c => at4 t b (Nat.div c (J4 t)) n (Nat.modulo c (J4 t))).

(** [torch.ones((b, n)).bool()] *)
Definition ones_mask (b n : nat) : mask2 := M2 b n (fun _ _ => true).

(** Lines 102-109: the combined padding mask
    [rearrange(q_mask, 'b i -> b () i ()') * rearrange(k_mask, 'b j -> b () () j')]. *)
Definition q_mask_of (b n : nat) (mask : option mask2) : mask2 :=
  default_lazy mask (fun _ => ones_mask b n).

Definition k_mask_of (b n klen : nat) (has_context : bool)
    (mask context_mask : option mask2) : mask2 :=
  let q_mask := q_mask_of b n mask in
  let k_mask := if negb has_context then Some q_mask else context_mask in
  default_lazy k_mask (fun _ => ones_mask b klen).

Definition input_mask_of (b n klen : nat) (has_context : bool)
    (mask context_mask : option mask2) : result (option mask4) :=
  if exists_ mask || exists_ context_mask then
    let q_mask := q_mask_of b n mask in
    let k_mask := k_mask_of b n klen has_context mask context_mask in
    if bcast_ok (MB q_mask) (MB k_mask) then
      Ok (Some (M4 (bcast (MB q_mask) (MB k_mask)) (MN q_mask) (MN k_mask)
                   (fun b i j =>
                      mat2 q_mask (bidx (MB q_mask) b) i
                      && mat2 k_mask (bidx (MB k_mask) b) j)))
    else Raise RuntimeError
  else Ok None.

(** [torch.einsum('bhid,bhjd->bhij', q, k)] *)
Definition einsum_qk (q k : tensor4) : result tensor4 :=
  if bcast_ok (B4 q) (B4 k) && bcast_ok (H4 q) (H4 k) && bcast_ok (J4 q) (J4 k)
  then
    Ok (T4 (bcast (B4 q) (B4 k)) (bcast (H4 q) (H4 k)) (I4 q) (I4 k)
          (fun b h i j =>
             sum_n (bcast (J4 q) (J4 k))
                   (fun d => at4 q (bidx (B4 q) b) (bidx (H4 q) h) i (bidx (J4 q) d)
                             * at4 k (bidx (B4 k) b) (bidx (H4 k) h) j (bidx (J4 k) d))))
  else Raise RuntimeError.

(** [torch.einsum('bhij,bhjd->bhid', attn_, v)] *)
Definition einsum_av (a v : tensor4) : result tensor4 :=
  if bcast_ok (B4 a) (B4 v) && bcast_ok (H4 a) (H4 v) && bcast_ok (J4 a) (I4 v)
  then
    Ok (T4 (bcast (B4 a) (B4 v)) (bcast (H4 a) (H4 v)) (I4 a) (J4 v)
          (fun b h i d =>
             sum_n (bcast (J4 a) (I4 v))
                   (fun j => at4 a (bidx (B4 a) b) (bidx (H4 a) h) i (bidx (J4 a) j)
                             * at4 v (bidx (B4 v) b) (bidx (H4 v) h) (bidx (I4 v) j) d)))
  else Raise RuntimeError.

Definition scale_by (s : R) (t : tensor4) : tensor4 :=
  T4 (B4 t) (H4 t) (I4 t) (J4 t) (fun b h i j => at4 t b h i j * s).

(** [dots.masked_fill_(~input_mask, MASK_VAL)] *)
Definition masked_fill_not (dots : tensor4) (m : mask4) : result tensor4 :=
  if bcast_to (M4B m) (B4 dots) && bcast_to (M4I m) (I4 dots)
     && bcast_to (M4J m) (J4 dots)
  then
    Ok (T4 (B4 dots) (H4 dots) (I4 dots) (J4 dots)
          (fun b h i j =>
             if negb (mat4 m (bidx (M4B m) b) (bidx (M4I m) i) (bidx (M4J m) j))
             then MASK_VAL else at4 dots b h i j))
  else Raise RuntimeError.

(** [torch.ones((i, j)).triu_(j - i + 1).bool()]: entry (r, c) is kept when
    c - r >= j - i + 1. *)
Definition causal_mask (i j : nat) (r c : nat) : bool :=
  (Z.of_nat j - Z.of_nat i + 1 <=? Z.of_nat c - Z.of_nat r)%Z.

(** [dots.masked_fill_(mask, MASK_VAL)] with the causal mask. *)
Definition causal_fill (dots : tensor4) : tensor4 :=
  T4 (B4 dots) (H4 dots) (I4 dots) (J4 dots)
     (fun b h i j =>
        if causal_mask (I4 dots) (J4 dots) i j then MASK_VAL else at4 dots b h i j).

(** [F.softmax(dots, -1)], over the real numbers.  The floating-point
    softmax rounds, and it underflows to exactly 0.0 at an entry whose score
    lies far below the maximum of its row; neither is modelled.  The
    statements about a forward pass are therefore about its scores, its
    shapes and its exceptions; a weight is computed only at inputs where
    the floating-point softmax is exact (rows of equal scores). *)
Definition softmax (dots : tensor4) : tensor4 :=
  T4 (B4 dots) (H4 dots) (I4 dots) (J4 dots)
     (fun b h i j =>
        exp (at4 dots b h i j)
        / sum_n (J4 dots) (fun k => exp (at4 dots b h i k))).

(** Lines 94-121 of [Attention.forward]: the similarity matrix after scaling
    and both fills, together with the value heads. *)
Definition masked_scores (self : Attention) (x : tensor3) (context : option tensor3)
    (mask context_mask : option mask2) : result (tensor4 * tensor4) :=
  let b := B3 x in
  let n := N3 x in
  let h := heads self in
  let kv_input := default_some context x in
  q ← Linear_forward (to_q self) x;
  kv ← Linear_forward (to_kv self) kv_input;
  kv ← chunk2 kv;
  q ← split_heads h q;
  k ← split_heads h (fst kv);
  v ← split_heads h (snd kv);
  input_mask ← input_mask_of b n (I4 k) (exists_ context) mask context_mask;
  dots ← einsum_qk q k;
  let dots := scale_by (scale self) dots in
  dots ← match input_mask with
         | Some m => masked_fill_not dots m
         | None => Ok dots
         end;
  let dots := if causal self then causal_fill dots else dots in
  Ok (dots, v).

Section Runtime.

(** The random state of the runtime and its [nn.Dropout] at rate [p], on
    attention matrices and on activations: taken as parameters. *)
Variable rng : Type.
Variable dropout4 : R -> tensor4 -> rng -> tensor4 * rng.
Variable dropout3 : R -> tensor3 -> rng -> tensor3 * rng.
(** [nn.GELU] on one number. *)
Variable gelu : R -> R.

(** [Attention.forward]; returns the output together with [attn], the
    attention matrix right after the softmax, and the random state. *)
Definition forward_full (self : Attention) (x : tensor3) (context : option tensor3)
    (mask context_mask : option mask2) (g : rng)
    : result (tensor3 * tensor4 * rng) :=
  sv ← masked_scores self x context mask context_mask;
  let attn := softmax (fst sv) in
  let '(attn_, g) := dropout4 (dropout self) attn g in
  out ← einsum_av attn_ (snd sv);
  let out := merge_heads out in
  out ← Linear_forward (to_out self) out;
  Ok (out, attn, g).

Definition forward (self : Attention) (x : tensor3) (context : option tensor3)
    (mask context_mask : option mask2) (g : rng) : result (tensor3 * rng) :=
  r ← forward_full self x context mask context_mask g;
  Ok (fst (fst r), snd r).

(** *** FeedForward *)

Inductive layer :=
  | LinearL (l : Linear)
  | GELU
  | Dropout (p : R).

(** The parameters drawn by the two [nn.Linear] constructors. *)
Record FeedForwardParams := {
  W1 : nat -> nat -> R; b1 : nat -> R;
  W2 : nat -> nat -> R; b2 : nat -> R
}.

(** [FeedForward.__init__(dim, mult = 4, dropout = 0.)]: [self.net]. *)
Definition FeedForward (dim mult : nat) (dropout : R) (p : FeedForwardParams)
    : list layer :=
  [ LinearL (mkLinear dim (dim * 4) (W1 p) (Some (b1 p)));
    GELU;
    Dropout dropout;
    LinearL (mkLinear (dim * 4) dim (W2 p) (Some (b2 p)));
    Dropout dropout ].

Definition layer_forward (l : layer) (x : tensor3) (g : rng) : result (tensor3 * rng) :=
  match l with
  | LinearL lin => y ← Linear_forward lin x; Ok (y, g)
  | GELU => Ok (T3 (B3 x) (N3 x) (D3 x) (fun b n d => gelu (at3 x b n d)), g)
  | Dropout p => Ok (dropout3 p x g)
  end.

(** [nn.Sequential.forward] *)
Fixpoint Sequential_forward (net : list layer) (x : tensor3) (g : rng)
    : result (tensor3 * rng) :=
  match net with
  | [] => Ok (x, g)
  | l :: net' =>
      r ← layer_forward l x g;
      Sequential_forward net' (fst r) (snd r)
  end.

(** [FeedForward.forward] *)
Definition FeedForward_forward (net : list layer) (x : tensor3) (g : rng)
    : result (tensor3 * rng) :=
  Sequential_forward net x g.

(** Width of the hidden activation: the output size of the first layer. *)
Definition hidden_width (net : list layer) : option nat :=
  match net with
  | LinearL l :: _ => Some (out_features l)
  | _ => None
  end.

End Runtime.

(** *** Inference mode and a small instance *)

(** In inference mode [nn.Dropout] is the identity and draws nothing. *)
Definition eval_dropout4 (p : R) (t : tensor4) (g : unit) : tensor4 * unit := (t, g).
Definition eval_dropout3 (p : R) (t : tensor3) (g : unit) : tensor3 * unit := (t, g).

(** A module with dim = 1 and one head: q = x, k = -x, v = 0. *)
Definition ex_params : AttentionParams :=
  {| Wq := fun _ _ => 1;
     Wkv := fun o _ => if Nat.eqb o 0 then -1 else 0;
     Wout := fun _ _ => 1;
     bout := fun _ => 0 |}.

Definition ex_attention (causal : bool) : Attention :=
  {| causal := causal;
     store_attention := false;
     heads := 1;
     scale := Rpower (INR 1) (- 0.5);
     to_q := mkLinear 1 1 (Wq ex_params) None;
     to_kv := mkLinear 1 (1 * 2) (Wkv ex_params) None;
     dropout := 0.1;
     to_out := mkLinear 1 1 (Wout ex_params) (Some (bout ex_params)) |}.

(** One batch, two positions, every entry 100. *)
Definition ex_x : tensor3 := T3 1 2 1 (fun _ _ _ => 100).

(** One batch, two positions, every entry 0. *)
Definition ex_zero : tensor3 := T3 1 2 1 (fun _ _ _ => 0).

(** Padding mask [[False, True]]. *)
Definition ex_mask : mask2 := M2 1 2 (fun _ n => Nat.eqb n 1).

End Attn.

(** ** basic_transformer.py: modules, construction and forward passes *)

Module Net.

(** *** Python values

    A parameter is its storage location and its shape: two parameters are
    the same storage exactly when their locations agree.  The wrapper and
    layer classes, whose attributes are fixed by their constructors, are the
    constructors of [module].  The three classes whose constructors look
    attributes up by name at run time ([TransformerEmbedding],
    [TransformerEncDec], [TransformerLM]) are objects with an attribute
    dictionary. *)

Definition param : Type := nat * list nat.

Inductive module :=
  | Embedding (num_embeddings embedding_dim : nat) (weight : param)
  | Linear (in_features out_features : nat) (weight : param) (bias : option param)
  | LayerNorm (dim : nat) (weight bias : param)
  | Dropout (p : R)
  | GELU
  | Sequential (layers : list module)
  | Residual (fn : module)
  | PostNorm (fn norm : module)
  | PreNorm (fn norm : module)
  | FeedForward (net : module)
  | Attention (causal store_attention : bool) (heads : nat) (scale : R)
              (to_q to_kv dropout to_out : module)
  | TransformerEncoderBlock (attn ff : module)
  | TransformerEncoder (dim : nat) (layers : list module)
  | TransformerDecoderBlock (attn cross ff : module)
  | TransformerDecoder (dim : nat) (layers : list module)
  | AbsolutePositionalEmbedding (emb : module)
  | FixedPositionalEmbedding (inv_freq : list nat).

Inductive value :=
  | VNone
  | VInt (n : Z)
  | VParam (p : param)
  | VModule (m : module)
  | VObj (cls : string) (attrs : gmap string value).

(** *** Construction: fresh storage locations and exceptions *)

Definition M (A : Type) : Type := nat -> result (A * nat).

#[export] Instance M_ret : MRet M := fun A a s => Ok (a, s).
#[export] Instance M_bind : MBind M := fun A B k m s =>
  match m s with
  | Ok (a, s') => k a s'
  | Raise e => Raise e
  end.

Definition raise {A} (e : exn) : M A := fun _ => Raise e.

Definition lift {A} (r : result A) : M A := fun s =>
  match r with
  | Ok a => Ok (a, s)
  | Raise e => Raise e
  end.

(** [nn.Parameter(torch.empty(shape))]: a new storage. *)
Definition new_param (shape : list nat) : M param := fun s => Ok ((s, shape), S s).

(** Attribute lookup on a value.  Methods are called directly below and are
    not read through [getattr]; of a layer only the attributes the source
    reads are listed. *)
Definition module_getattr (m : module) (name : string) : result value :=
  match m with
  | Embedding _ _ w =>
      if String.eqb name "weight" then Ok (VParam w) else Raise AttributeError
  | Linear _ _ w b =>
      if String.eqb name "weight" then Ok (VParam w)
      else if String.eqb name "bias"
           then Ok (match b with Some p => VParam p | None => VNone end)
      else Raise AttributeError
  | LayerNorm _ w b =>
      if String.eqb name "weight" then Ok (VParam w)
      else if String.eqb name "bias" then Ok (VParam b)
      else Raise AttributeError
  | AbsolutePositionalEmbedding emb =>
      if String.eqb name "emb" then Ok (VModule emb) else Raise AttributeError
  | _ => Raise AttributeError
  end.

Definition getattr (o : value) (name : string) : result value :=
  match o with
  | VObj _ attrs =>
      match attrs !! name with
      | Some v => Ok v
      | None => Raise AttributeError
      end
  | VModule m => module_getattr m name
  | _ => Raise AttributeError
  end.

(** [getattr(o, name, None)] *)
Definition getattr_or_None (o : value) (name : string) : value :=
  match getattr o name with
  | Ok v => v
  | Raise _ => VNone
  end.

(** [self.name = v] on an object with an attribute dictionary. *)
Definition setattr (self : value) (name : string) (v : value) : result value :=
  match self with
  | VObj cls attrs => Ok (VObj cls (<[name := v]> attrs))
  | _ => Raise AttributeError
  end.

(** [m.weight = v] on a layer: [nn.Module.__setattr__] accepts only a
    parameter for a registered parameter name. *)
Definition set_weight (m : value) (v : value) : result value :=
  match m, v with
  | VModule (Linear i o _ b), VParam p => Ok (VModule (Linear i o p b))
  | VModule (Embedding n d _), VParam p => Ok (VModule (Embedding n d p))
  | VModule _, _ => Raise TypeError
  | _, _ => Raise AttributeError
  end.

(** Calling the value read from an attribute.  The source does this once,
    in [self.FixedPositionalEmbedding(dim)]; none of the values an attribute
    can hold at that point accepts an integer argument. *)
Definition call_value (f : value) (arg : nat) : M value := raise TypeError.

(** *** The layers of the runtime *)

Definition nn_Embedding (num dim : nat) : M module :=
  w ← new_param [num; dim];
  mret (Embedding num dim w).

Definition nn_Linear (i o : nat) (bias : bool) : M module :=
  w ← new_param [o; i];
  b ← (if bias then p ← new_param [o]; mret (Some p) else mret None);
  mret (Linear i o w b).

Definition nn_LayerNorm (dim : nat) : M module :=
  w ← new_param [dim];
  b ← new_param [dim];
  mret (LayerNorm dim w b).

(** [nn.Dropout(p)]: the constructor raises [ValueError] when [p < 0] or
    [p > 1]. *)
Definition nn_Dropout (p : R) : M module :=
  if Rlt_dec p 0 then raise ValueError
  else if Rlt_dec 1 p then raise ValueError
  else mret (Dropout p).

(** *** The classes of the source *)

(** [Residual(fn)] *)
Definition Residual_init (fn : module) : M module := mret (Residual fn).

(** [PostNorm(dim, fn)] *)
Definition PostNorm_init (dim : nat) (fn : module) : M module :=
  norm ← nn_LayerNorm dim;
  mret (PostNorm fn norm).

(** [PreNorm(dim, fn)] *)
Definition PreNorm_init (dim : nat) (fn : module) : M module :=
  norm ← nn_LayerNorm dim;
  mret (PreNorm fn norm).

(** [FeedForward(dim, mult = 4, dropout = 0.)] *)
Definition FeedForward_init (dim mult : nat) (dropout : R) : M module :=
  l1 ← nn_Linear dim (dim * 4) true;
  d1 ← nn_Dropout dropout;
  l2 ← nn_Linear (dim * 4) dim true;
  d2 ← nn_Dropout dropout;
  mret (FeedForward (Sequential [l1; GELU; d1; l2; d2])).

(** [Attention(dim, heads = 8, causal = False, mask = None, dropout = 0.1,
    store_attention = False)] *)
Definition Attention_init (dim heads : nat) (causal : bool) (dropout : R)
    (store_attention : bool) : M module :=
  if Nat.eqb dim 0 then raise ZeroDivisionError
  else
    to_q ← nn_Linear dim dim false;
    to_kv ← nn_Linear dim (dim * 2) false;
    drop ← nn_Dropout dropout;
    to_out ← nn_Linear dim dim true;
    mret (Attention causal store_attention heads (Rpower (INR dim) (- 0.5))
            to_q to_kv drop to_out).

(** [TransformerEncoderBlock(dim, heads = 8, causal = False, mask = None,
    attn_dropout = 0.1, ff_dropout = 0.1)].  The constructor does not pass
    [heads] on: the attention is built with its default of 8 heads. *)
Definition TransformerEncoderBlock_init (dim heads : nat) (causal : bool)
    (attn_dropout ff_dropout : R) : M module :=
  a ← Attention_init dim 8 causal attn_dropout false;
  a ← PreNorm_init dim a;
  attn ← Residual_init a;
  f ← FeedForward_init dim 4 ff_dropout;
  f ← PreNorm_init dim f;
  ff ← Residual_init f;
  mret (TransformerEncoderBlock attn ff).

(** The [for _ in range(depth)] loop of the stacks. *)
Fixpoint repeatM (depth : nat) (mk : M module) : M (list module) :=
  match depth with
  | O => mret []
  | S d => l ← mk; ls ← repeatM d mk; mret (l :: ls)
  end.

(** [TransformerEncoder(dim, depth = 6, heads = 8, causal = False,
    attn_dropout = 0.1, ff_dropout = 0.1)] *)
Definition TransformerEncoder_init (dim depth heads : nat) (causal : bool)
    (attn_dropout ff_dropout : R) : M module :=
  layers ← repeatM depth
             (TransformerEncoderBlock_init dim heads causal attn_dropout ff_dropout);
  mret (TransformerEncoder dim layers).

(** [TransformerDecoderBlock(dim, heads = 8, mask = None, attn_dropout = 0.1,
    ff_dropout = 0.1)] *)
Definition TransformerDecoderBlock_init (dim heads : nat)
    (attn_dropout ff_dropout : R) : M module :=
  a ← Attention_init dim 8 true attn_dropout false;
  a ← PreNorm_init dim a;
  attn ← Residual_init a;
  c ← Attention_init dim 8 false attn_dropout false;
  c ← PreNorm_init dim c;
  cross ← Residual_init c;
  f ← FeedForward_init dim 4 ff_dropout;
  f ← PreNorm_init dim f;
  ff ← Residual_init f;
  mret (TransformerDecoderBlock attn cross ff).

(** [TransformerDecoder(dim, depth = 6, heads = 8, attn_dropout = 0.1,
    ff_dropout = 0.1)] *)
Definition TransformerDecoder_init (dim depth heads : nat)
    (attn_dropout ff_dropout : R) : M module :=
  layers ← repeatM depth
             (TransformerDecoderBlock_init dim heads attn_dropout ff_dropout);
  mret (TransformerDecoder dim layers).

(** [AbsolutePositionalEmbedding(dim, max_seq_len)] *)
Definition AbsolutePositionalEmbedding_init (dim max_seq_len : nat) : M module :=
  emb ← nn_Embedding max_seq_len dim;
  mret (AbsolutePositionalEmbedding emb).

(** [FixedPositionalEmbedding(dim)]: [torch.arange(0, dim, 2)] has
    ceil(dim / 2) entries. *)
Definition FixedPositionalEmbedding_init (dim : nat) : M module :=
  mret (FixedPositionalEmbedding [Nat.div (dim + 1) 2]).

Definition numel (shape : list nat) : nat := fold_right Nat.mul 1%nat shape.

(** [TransformerEmbedding._init] *)
Definition TransformerEmbedding__init (self : value) : M unit :=
  emb ← lift (getattr self "emb");
  _ ← lift (getattr emb "weight");
  pos_enc ← lift (getattr self "pos_enc");
  match getattr_or_None pos_enc "weight" with
  | VNone => mret tt
  | VParam p =>
      (* truth value of a tensor *)
      if Nat.ltb 1 (numel (snd p)) then raise RuntimeError else mret tt
  | _ => mret tt
  end.

(** [TransformerEmbedding(emb_sz, dim, max_seq_len = 512, dropout = 0.,
    pos_enc = 'absolute')] *)
Definition TransformerEmbedding_init (emb_sz dim max_seq_len : nat) (dropout : R)
    (pos_enc : string) : M value :=
  let self := VObj "TransformerEmbedding" ∅ in
  emb ← nn_Embedding emb_sz dim;
  self ← lift (setattr self "emb" (VModule emb));
  self ← (if String.eqb pos_enc "absolute" then
            p ← AbsolutePositionalEmbedding_init dim max_seq_len;
            lift (setattr self "pos_enc" (VModule p))
          else if String.eqb pos_enc "fixed" then
            f ← lift (getattr self "FixedPositionalEmbedding");
            _ ← call_value f dim;
            mret self
          else if String.eqb pos_enc "axial" then
            raise NotImplementedError
          else mret self);
  drop ← nn_Dropout dropout;
  self ← lift (setattr self "dropout" (VModule drop));
  _ ← TransformerEmbedding__init self;
  mret self.

Definition VOptInt (o : option Z) : value :=
  match o with Some z => VInt z | None => VNone end.

(** [TransformerEncDec(enc_vocab_sz, dec_vocab_sz, dim, depth = 6, heads = 8,
    max_seq_len = 512, pad_idx = None, tie_weights = False)] *)
Definition TransformerEncDec_init (enc_vocab_sz dec_vocab_sz dim depth heads
    max_seq_len : nat) (pad_idx : option Z) (tie_weights : bool) : M value :=
  let self := VObj "TransformerEncDec" ∅ in
  self ← lift (setattr self "max_seq_len" (VInt (Z.of_nat max_seq_len)));
  self ← lift (setattr self "pad_idx" (VOptInt pad_idx));
  enc_emb ← TransformerEmbedding_init enc_vocab_sz dim max_seq_len 0 "absolute";
  self ← lift (setattr self "enc_emb" enc_emb);
  dec_emb ← TransformerEmbedding_init dec_vocab_sz dim max_seq_len 0 "absolute";
  self ← lift (setattr self "dec_emb" dec_emb);
  encoder ← TransformerEncoder_init dim depth heads false 0.1 0.1;
  self ← lift (setattr self "encoder" (VModule encoder));
  decoder ← TransformerDecoder_init dim depth heads 0.1 0.1;
  self ← lift (setattr self "decoder" (VModule decoder));
  proj ← nn_Linear dim dec_vocab_sz true;
  self ← lift (setattr self "proj" (VModule proj));
  if tie_weights then
    emb ← lift (getattr self "emb");
    emb ← lift (getattr emb "emb");
    w ← lift (getattr emb "weight");
    proj ← lift (getattr self "proj");
    proj ← lift (set_weight proj w);
    lift (setattr self "proj" proj)
  else mret self.

(** [TransformerLM(vocab_sz, dim, depth = 6, heads = 8, causal = True,
    max_seq_len = 512, tie_weights = False, attn_dropout = 0.1,
    ff_dropout = 0.1, emb_dropout = 0.1)] *)
Definition TransformerLM_init (vocab_sz dim depth heads : nat) (causal : bool)
    (max_seq_len : nat) (tie_weights : bool)
    (attn_dropout ff_dropout emb_dropout : R) : M value :=
  let self := VObj "TransformerLM" ∅ in
  self ← lift (setattr self "max_seq_len" (VInt (Z.of_nat max_seq_len)));
  emb ← TransformerEmbedding_init vocab_sz dim max_seq_len emb_dropout "absolute";
  self ← lift (setattr self "emb" emb);
  tfmr ← TransformerEncoder_init dim depth heads causal attn_dropout ff_dropout;
  self ← lift (setattr self "tfmr" (VModule tfmr));
  proj ← nn_Linear dim vocab_sz true;
  self ← lift (setattr self "proj" (VModule proj));
  if tie_weights then
    emb ← lift (getattr self "emb");
    emb ← lift (getattr emb "emb");
    w ← lift (getattr emb "weight");
    proj ← lift (getattr self "proj");
    proj ← lift (set_weight proj w);
    lift (setattr self "proj" proj)
  else mret self.

(** *** Forward passes, on shapes

    The forward pass of a model is followed on the shapes of its tensors
    and on the exceptions it raises.  Integer and boolean tensors carry
    their entries (row-major); the entries of floating tensors, and of a
    mask derived from one, are not tracked. *)

Inductive tensor :=
  | LongT (shape : list nat) (data : list Z)
  | BoolT (shape : list nat) (data : list bool)
  | FloatT (shape : list nat).

Definition tshape (t : tensor) : list nat :=
  match t with LongT s _ => s | BoolT s _ => s | FloatT s => s end.

(** The entries are ids of a vocabulary of [num] tokens. *)
Definition in_vocab (num : nat) (data : list Z) : Prop :=
  List.Forall (fun v => (0 <= v < Z.of_nat num)%Z) data.

(** [torch.arange(n)] *)
Definition arange (n : nat) : tensor := LongT [n] (List.map Z.of_nat (seq 0 n)).

(** [shape[i]] *)
Definition shape_index (s : list nat) (i : nat) : result nat :=
  match nth_error s i with
  | Some n => Ok n
  | None => Raise IndexError
  end.

Fixpoint split_last (s : list nat) : option (list nat * nat) :=
  match s with
  | [] => None
  | [d] => Some ([], d)
  | a :: s' =>
      match split_last s' with
      | Some (i, d) => Some (a :: i, d)
      | None => None
      end
  end.

(** Broadcast of two shapes, aligned at the last dimension. *)
Fixpoint broadcast_rev (r1 r2 : list nat) : result (list nat) :=
  match r1, r2 with
  | [], r | r, [] => Ok r
  | a :: r1', b :: r2' =>
      if Attn.bcast_ok a b then
        match broadcast_rev r1' r2' with
        | Ok r => Ok (Attn.bcast a b :: r)
        | Raise e => Raise e
        end
      else Raise RuntimeError
  end.

Definition broadcast_shapes (s1 s2 : list nat) : result (list nat) :=
  match broadcast_rev (rev s1) (rev s2) with
  | Ok r => Ok (rev r)
  | Raise e => Raise e
  end.

(** The arguments of a call after [x]: positional and keyword. *)
Record extras := {
  pos : list (option tensor);
  kw : list (string * option tensor)
}.

Definition no_extras : extras := {| pos := []; kw := [] |}.
Definition is_empty (e : extras) : bool :=
  match pos e, kw e with [], [] => true | _, _ => false end.

Definition in_names (n : string) (names : list string) : bool :=
  existsb (String.eqb n) names.

Fixpoint zip_names (names : list string) (vals : list (option tensor))
    : result (list (string * option tensor)) :=
  match vals, names with
  | [], _ => Ok []
  | _ :: _, [] => Raise TypeError
  | v :: vals', n :: names' =>
      match zip_names names' vals' with
      | Ok l => Ok ((n, v) :: l)
      | Raise e => Raise e
      end
  end.

Fixpoint add_keywords (names : list string) (kws bound : list (string * option tensor))
    : result (list (string * option tensor)) :=
  match kws with
  | [] => Ok bound
  | (n, v) :: kws' =>
      if negb (in_names n names) || in_names n (List.map fst bound)
      then Raise TypeError
      else add_keywords names kws' ((n, v) :: bound)
  end.

(** Binding of the arguments of a call to the parameters [names]. *)
Definition bind_args (names : list string) (e : extras)
    : result (list (string * option tensor)) :=
  match zip_names names (pos e) with
  | Ok bound => add_keywords names (kw e) bound
  | Raise err => Raise err
  end.

Fixpoint passed (n : string) (bound : list (string * option tensor))
    : option (option tensor) :=
  match bound with
  | [] => None
  | (m, v) :: bound' => if String.eqb n m then Some v else passed n bound'
  end.

(** A parameter whose default is [None]. *)
Definition arg (n : string) (bound : list (string * option tensor)) : option tensor :=
  match passed n bound with Some v => v | None => None end.

(** A parameter without default. *)
Definition required (n : string) (bound : list (string * option tensor))
    : result (option tensor) :=
  match passed n bound with Some v => Ok v | None => Raise TypeError end.

(** [F.embedding] *)
Definition Embedding_forward (num dim : nat) (x : tensor) : result tensor :=
  match x with
  | LongT s d =>
      if forallb (fun v => (0 <=? v)%Z && (v <? Z.of_nat num)%Z) d
      then Ok (FloatT (s ++ [dim]))
      else Raise IndexError
  | _ => Raise RuntimeError
  end.

(** [F.linear] with a weight of shape [o; i]. *)
Definition Linear_forward (weight : param) (x : tensor) : result tensor :=
  match x, snd weight with
  | FloatT s, [o; i] =>
      match split_last s with
      | Some (init, d) => if Nat.eqb d i then Ok (FloatT (init ++ [o]))
                          else Raise RuntimeError
      | None => Raise RuntimeError
      end
  | _, _ => Raise RuntimeError
  end.

(** [F.layer_norm] over the last dimension. *)
Definition LayerNorm_forward (dim : nat) (x : tensor) : result tensor :=
  match x with
  | FloatT s =>
      match split_last s with
      | Some (_, d) => if Nat.eqb d dim then Ok x else Raise RuntimeError
      | None => Raise RuntimeError
      end
  | _ => Raise RuntimeError
  end.

Definition add (a b : tensor) : result tensor :=
  s ← broadcast_shapes (tshape a) (tshape b);
  Ok (FloatT s).

(** [x += p]: the result keeps the shape of [x]. *)
Definition iadd (x p : tensor) : result tensor :=
  s ← broadcast_shapes (tshape x) (tshape p);
  if bool_decide (s = tshape x) then Ok x else Raise RuntimeError.

(** [rearrange(t, 'b n (h d) -> b h n d', h = h)]; with h = 0 the
    divisibility test of the last axis is a division by zero. *)
Definition split_heads (h : nat) (t : tensor) : result (nat * nat * nat * nat) :=
  match tshape t with
  | [b; n; D] =>
      if Nat.eqb h 0 then Raise ZeroDivisionError
      else if negb (Nat.eqb (Nat.modulo D h) 0) then Raise EinopsError
      else Ok (b, h, n, Nat.div D h)
  | _ => Raise EinopsError
  end.

(** [rearrange(m, 'b i -> b () i ()')] and ['b j -> b () () j'] *)
Definition mask_2d (m : list nat) : result (nat * nat) :=
  match m with
  | [b; i] => Ok (b, i)
  | _ => Raise EinopsError
  end.

(** The element type of a tensor, and the type of a product [a * b]. *)
Inductive dtype := DBool | DLong | DFloat.

Definition dtype_of (t : tensor) : dtype :=
  match t with
  | LongT _ _ => DLong
  | BoolT _ _ => DBool
  | FloatT _ => DFloat
  end.

Definition promote (a b : dtype) : dtype :=
  match a, b with
  | DFloat, _ | _, DFloat => DFloat
  | DLong, _ | _, DLong => DLong
  | DBool, DBool => DBool
  end.

(** [dots.masked_fill_(~input_mask, MASK_VAL)] for a mask of element type
    [d]: [~] is defined on boolean and integer tensors only, and
    [masked_fill_] takes a boolean mask only. *)
Definition fill_dtype (d : dtype) : result unit :=
  match d with
  | DBool => Ok tt
  | DLong => Raise RuntimeError
  | DFloat => Raise TypeError
  end.

(** [Attention.forward] between the projections and [to_out]. *)
Definition attention_core (heads : nat) (causal : bool) (b n : nat)
    (q kv : tensor) (has_context : bool) (mask context_mask : option tensor)
    : result tensor :=
  match split_last (tshape kv) with
  | None => Raise ValueError
  | Some (init, D) =>
    if Nat.ltb D 2 then Raise ValueError
    else
      let c := Nat.div (D + 1) 2 in
      '(qb, qh, qn, qd) ← split_heads heads q;
      '(kb, kh, kn, kd) ← split_heads heads (FloatT (init ++ [c]));
      '(vb, vh, vn, vd) ← split_heads heads (FloatT (init ++ [D - c]));
      input_mask ←
        (if exists_ mask || exists_ context_mask then
           let q_mask := default_lazy (option_map tshape mask) (fun _ => [b; n]) in
           let q_type := default_lazy (option_map dtype_of mask) (fun _ => DBool) in
           let k_mask := if negb has_context then Some q_mask
                         else option_map tshape context_mask in
           let k_type := if negb has_context then Some q_type
                         else option_map dtype_of context_mask in
           let k_mask := default_lazy k_mask (fun _ => [b; kn]) in
           let k_type := default_lazy k_type (fun _ => DBool) in
           '(mqb, mi) ← mask_2d q_mask;
           '(mkb, mj) ← mask_2d k_mask;
           if Attn.bcast_ok mqb mkb
           then Ok (Some (Attn.bcast mqb mkb, mi, mj, promote q_type k_type))
           else Raise RuntimeError
         else Ok None);
      if Attn.bcast_ok qb kb && Attn.bcast_ok qh kh && Attn.bcast_ok qd kd then
        let db := Attn.bcast qb kb in
        let dh := Attn.bcast qh kh in
        _ ← match input_mask with
            | Some (mb, mi, mj, d) =>
                _ ← fill_dtype d;
                if Attn.bcast_to mb db && Attn.bcast_to mi qn && Attn.bcast_to mj kn
                then Ok tt else Raise RuntimeError
            | None => Ok tt
            end;
        if Attn.bcast_ok db vb && Attn.bcast_ok dh vh && Attn.bcast_ok kn vn then
          Ok (FloatT [Attn.bcast db vb; qn; (Attn.bcast dh vh * vd)%nat])
        else Raise RuntimeError
      else Raise RuntimeError
  end.

(** [m(x, *args, **kwargs)] for a layer [m]. *)
Fixpoint call (m : module) (x : tensor) (e : extras) {struct m} : result tensor :=
  match m with
  | Embedding num dim _ =>
      if is_empty e then Embedding_forward num dim x else Raise TypeError
  | Linear _ _ w _ =>
      if is_empty e then Linear_forward w x else Raise TypeError
  | LayerNorm dim _ _ =>
      if is_empty e then LayerNorm_forward dim x else Raise TypeError
  | Dropout _ => if is_empty e then Ok x else Raise TypeError
  | GELU => if is_empty e then Ok x else Raise TypeError
  | Sequential layers =>
      if is_empty e then
        (fix go (ls : list module) (x : tensor) : result tensor :=
           match ls with
           | [] => Ok x
           | l :: ls' => x' ← call l x no_extras; go ls' x'
           end) layers x
      else Raise TypeError
  | Residual fn =>
      r ← call fn x e;
      add r x
  | PostNorm fn norm =>
      x ← call fn x no_extras;
      call norm x e
  | PreNorm fn norm =>
      x ← call norm x no_extras;
      call fn x e
  | FeedForward net =>
      if is_empty e then call net x no_extras else Raise TypeError
  | Attention causal _ heads _ to_q to_kv _ to_out =>
      a ← bind_args ["context"; "mask"; "context_mask"] e;
      match tshape x with
      | [b; n; _] =>
          let context := arg "context" a in
          let kv_input := default_some context x in
          q ← call to_q x no_extras;
          kv ← call to_kv kv_input no_extras;
          out ← attention_core heads causal b n q kv (exists_ context)
                  (arg "mask" a) (arg "context_mask" a);
          call to_out out no_extras
      | _ => Raise ValueError
      end
  | TransformerEncoderBlock attn ff =>
      a ← bind_args ["mask"] e;
      out ← call attn x {| pos := []; kw := [("mask", arg "mask" a)] |};
      call ff out no_extras
  | TransformerEncoder _ layers =>
      a ← bind_args ["mask"] e;
      (fix go (ls : list module) (x : tensor) : result tensor :=
         match ls with
         | [] => Ok x
         | l :: ls' =>
             x' ← call l x {| pos := []; kw := [("mask", arg "mask" a)] |};
             go ls' x'
         end) layers x
  | TransformerDecoderBlock attn cross ff =>
      a ← bind_args ["context"; "mask"; "context_mask"] e;
      context ← required "context" a;
      out ← call attn x {| pos := []; kw := [("mask", arg "mask" a)] |};
      out ← call cross out
              {| pos := [context];
                 kw := [("mask", arg "mask" a);
                        ("context_mask", arg "context_mask" a)] |};
      call ff out no_extras
  | TransformerDecoder _ layers =>
      a ← bind_args ["context"; "mask"; "context_mask"] e;
      context ← required "context" a;
      (fix go (ls : list module) (x : tensor) : result tensor :=
         match ls with
         | [] => Ok x
         | l :: ls' =>
             x' ← call l x
                    {| pos := [context; arg "mask" a; arg "context_mask" a];
                       kw := [] |};
             go ls' x'
         end) layers x
  | AbsolutePositionalEmbedding emb =>
      if is_empty e then
        n ← shape_index (tshape x) 1;
        call emb (arange n) no_extras
      else Raise TypeError
  | FixedPositionalEmbedding inv_freq =>
      if is_empty e then
        n ← shape_index (tshape x) 1;
        match inv_freq with
        | [f] => Ok (FloatT [1; n; f + f])
        | _ => Raise RuntimeError
        end
      else Raise TypeError
  end.

(** [TransformerEmbedding.forward] *)
Definition TransformerEmbedding_forward (self : value) (x : tensor) : result tensor :=
  match tshape x with
  | [_; n] =>
      emb ← getattr self "emb";
      x ← match emb with VModule m => call m x no_extras | _ => Raise TypeError end;
      pos_enc ← getattr self "pos_enc";
      p ← match pos_enc with
          | VModule m => call m (arange n) no_extras
          | _ => Raise TypeError
          end;
      x ← iadd x p;
      dropout ← getattr self "dropout";
      match dropout with VModule m => call m x no_extras | _ => Raise TypeError end
  | _ => Raise ValueError
  end.

(** Calling the value of an attribute: a layer, or an embedding object. *)
Definition call_v (v : value) (x : tensor) (e : extras) : result tensor :=
  match v with
  | VModule m => call m x e
  | VObj cls _ =>
      if String.eqb cls "TransformerEmbedding" && is_empty e
      then TransformerEmbedding_forward v x
      else Raise TypeError
  | _ => Raise TypeError
  end.

(** [x != p] *)
Definition ne_scalar (x : tensor) (p : Z) : tensor :=
  match x with
  | LongT s d => BoolT s (List.map (fun v : Z => negb (Z.eqb v p)) d)
  | BoolT s d => BoolT s (List.map (fun v : bool => negb (Z.eqb (if v then 1%Z else 0%Z) p)) d)
  | FloatT s => BoolT s []
  end.

(** [TransformerEncDec.get_padding_mask] *)
Definition get_padding_mask (self : value) (x : tensor) : result (option tensor) :=
  pad_idx ← getattr self "pad_idx";
  match pad_idx with
  | VNone => Ok None
  | VInt p => Ok (Some (ne_scalar x p))
  | _ => Raise TypeError
  end.

(** The first two lines of [TransformerEncDec.forward]: the masks in use. *)
Definition forward_masks (self : value) (src tgt : tensor)
    (src_mask tgt_mask : option tensor) : result (option tensor * option tensor) :=
  m ← get_padding_mask self src;
  let src_mask := default src_mask m in
  m ← get_padding_mask self tgt;
  let tgt_mask := default tgt_mask m in
  Ok (src_mask, tgt_mask).

(** [TransformerEncDec.forward] *)
Definition TransformerEncDec_forward (self : value) (src tgt : tensor)
    (src_mask tgt_mask : option tensor) : result tensor :=
  '(src_mask, tgt_mask) ← forward_masks self src tgt src_mask tgt_mask;
  encoder ← getattr self "encoder";
  enc_emb ← getattr self "enc_emb";
  e ← call_v enc_emb src no_extras;
  enc ← call_v encoder e {| pos := []; kw := [("mask", src_mask)] |};
  decoder ← getattr self "decoder";
  dec_emb ← getattr self "dec_emb";
  d ← call_v dec_emb tgt no_extras;
  out ← call_v decoder d
          {| pos := [];
             kw := [("context", Some enc); ("mask", tgt_mask);
                    ("context_mask", src_mask)] |};
  proj ← getattr self "proj";
  call_v proj out no_extras.

(** [TransformerLM.forward] *)
Definition TransformerLM_forward (self : value) (x : tensor) (mask : option tensor)
    : result tensor :=
  emb ← getattr self "emb";
  x ← call_v emb x no_extras;
  tfmr ← getattr self "tfmr";
  x ← call_v tfmr x {| pos := []; kw := [("mask", mask)] |};
  proj ← getattr self "proj";
  call_v proj x no_extras.

End Net.

(** ** Proofs: tokenizer *)

Module TokenizerProofs.
Import Tokenizer.
Local Open Scope Z_scope.

Lemma lor_high_low (a x k : Z) :
  0 <= k -> 0 <= x < 2 ^ k -> Z.lor (a * 2 ^ k) x = a * 2 ^ k + x.
Proof.
  intros Hk Hx.
  assert (Hland : Z.land (a * 2 ^ k) x = 0).
  { apply Z.bits_inj'. intros n Hn.
    rewrite Z.land_spec, Z.bits_0.
    destruct (Z.ltb_spec n k) as [Hlt | Hge].
    - rewrite Z.mul_pow2_bits_low by lia. reflexivity.
    - rewrite <- (Z.mod_small x (2 ^ k)) by lia.
      rewrite Z.mod_pow2_bits_high by lia. apply andb_false_r. }
  rewrite <- Z.lxor_lor by exact Hland.
  symmetry. apply Z.add_nocarry_lxor. exact Hland.
Qed.

Lemma lor_C0 x : 0 <= x < 64 -> Z.lor 0xC0 x = 0xC0 + x.
Proof. intros H. apply (lor_high_low 3 x 6); lia. Qed.

Lemma lor_80 x : 0 <= x < 64 -> Z.lor 0x80 x = 0x80 + x.
Proof. intros H. apply (lor_high_low 2 x 6); lia. Qed.

Lemma lor_E0 x : 0 <= x < 32 -> Z.lor 0xE0 x = 0xE0 + x.
Proof. intros H. apply (lor_high_low 7 x 5); lia. Qed.

Lemma lor_F0 x : 0 <= x < 16 -> Z.lor 0xF0 x = 0xF0 + x.
Proof. intros H. apply (lor_high_low 15 x 4); lia. Qed.

Lemma land_3F x : Z.land x 0x3F = x mod 64.
Proof. change 0x3F with (Z.ones 6). rewrite Z.land_ones by lia. reflexivity. Qed.

Lemma shiftr_div x k : 0 <= k -> Z.shiftr x k = x / 2 ^ k.
Proof. intros. apply Z.shiftr_div_pow2; lia. Qed.

Lemma shiftl_mul x k : 0 <= k -> Z.shiftl x k = x * 2 ^ k.
Proof. intros. apply Z.shiftl_mul_pow2; lia. Qed.

Lemma is_continuation_byte_true ch :
  0x80 <= ch < 0xC0 -> is_continuation_byte ch = true.
Proof. unfold is_continuation_byte. intros. apply andb_true_intro. split; [apply Z.leb_le | apply Z.ltb_lt]; lia. Qed.

Ltac ltb_false := apply Z.ltb_ge; lia.
Ltac ltb_true := apply Z.ltb_lt; lia.

Lemma decode_1 ch r :
  0 <= ch < 0x80 ->
  utf8_decode_replace (ch :: r) = ch :: utf8_decode_replace r.
Proof.
  intros H. cbn [utf8_decode_replace].
  replace (ch <? 0x80) with true by (symmetry; ltb_true). reflexivity.
Qed.

Lemma decode_2 ch ch2 r :
  0xC2 <= ch < 0xE0 -> 0x80 <= ch2 < 0xC0 ->
  utf8_decode_replace (ch :: ch2 :: r)
  = (ch * 64 + ch2 - 0x3080) :: utf8_decode_replace r.
Proof.
  intros H H2. cbn [utf8_decode_replace].
  replace (ch <? 0x80) with false by (symmetry; ltb_false).
  replace (ch <? 0xE0) with true by (symmetry; ltb_true).
  replace (ch <? 0xC2) with false by (symmetry; ltb_false).
  rewrite is_continuation_byte_true by lia. cbn [negb].
  rewrite !shiftl_mul by lia. f_equal.
Qed.

Lemma decode_3 ch ch2 ch3 r :
  0xE0 <= ch < 0xF0 -> 0x80 <= ch2 < 0xC0 -> 0x80 <= ch3 < 0xC0 ->
  (ch = 0xE0 -> 0xA0 <= ch2) -> (ch = 0xED -> ch2 < 0xA0) ->
  utf8_decode_replace (ch :: ch2 :: ch3 :: r)
  = (ch * 4096 + ch2 * 64 + ch3 - 0xE2080) :: utf8_decode_replace r.
Proof.
  intros H H2 H3 HE0 HED. cbn [utf8_decode_replace].
  replace (ch <? 0x80) with false by (symmetry; ltb_false).
  replace (ch <? 0xE0) with false by (symmetry; ltb_false).
  replace (ch <? 0xF0) with true by (symmetry; ltb_true).
  rewrite !is_continuation_byte_true by lia. cbn [negb orb].
  replace (if ch2 <? 0xA0 then ch =? 0xE0 else ch =? 0xED) with false.
  2:{ symmetry. destruct (Z.ltb_spec ch2 0xA0); apply Z.eqb_neq; lia. }
  rewrite !shiftl_mul by lia. f_equal.
Qed.

Lemma decode_4 ch ch2 ch3 ch4 r :
  0xF0 <= ch < 0xF5 ->
  0x80 <= ch2 < 0xC0 -> 0x80 <= ch3 < 0xC0 -> 0x80 <= ch4 < 0xC0 ->
  (ch = 0xF0 -> 0x90 <= ch2) -> (ch = 0xF4 -> ch2 < 0x90) ->
  utf8_decode_replace (ch :: ch2 :: ch3 :: ch4 :: r)
  = (ch * 262144 + ch2 * 4096 + ch3 * 64 + ch4 - 0x3C82080)
      :: utf8_decode_replace r.
Proof.
  intros H H2 H3 H4 HF0 HF4. cbn [utf8_decode_replace].
  replace (ch <? 0x80) with false by (symmetry; ltb_false).
  replace (ch <? 0xE0) with false by (symmetry; ltb_false).
  replace (ch <? 0xF0) with false by (symmetry; ltb_false).
  replace (ch <? 0xF5) with true by (symmetry; ltb_true).
  rewrite !is_continuation_byte_true by lia. cbn [negb orb].
  replace (if ch2 <? 0x90 then ch =? 0xF0 else ch =? 0xF4) with false.
  2:{ symmetry. destruct (Z.ltb_spec ch2 0x90); apply Z.eqb_neq; lia. }
  rewrite !shiftl_mul by lia. f_equal.
Qed.

(** One code point: the encoder succeeds, yields bytes, and the decoder
    reads exactly that code point back in front of any continuation. *)
Lemma utf8_char_roundtrip c :
  is_code_point c -> is_surrogate c = false ->
  exists bs, utf8_encode_char c = Ok bs
             /\ List.Forall is_byte bs
             /\ forall r, utf8_decode_replace (bs ++ r) = c :: utf8_decode_replace r.
Proof.
  unfold is_code_point, utf8_encode_char. intros Hc Hs0.
  assert (Hsur : c < 0xD800 \/ 0xDFFF < c).
  { unfold is_surrogate in Hs0. apply andb_false_iff in Hs0.
    destruct Hs0 as [Hs | Hs]; [left; apply Z.leb_gt in Hs | right; apply Z.leb_gt in Hs]; lia. }
  destruct (Z.ltb_spec c 0x80) as [H1 | H1].
  { eexists. split; [reflexivity|]. split.
    - repeat constructor; unfold is_byte; lia.
    - intros r. cbn [app]. apply decode_1. lia. }
  destruct (Z.ltb_spec c 0x800) as [H2 | H2].
  { eexists. split; [reflexivity|].
    rewrite !land_3F, !shiftr_div by lia.
    change (2 ^ 6) with 64.
    rewrite lor_C0, lor_80 by (Z.to_euclidean_division_equations; lia).
    split.
    - repeat constructor; unfold is_byte; Z.to_euclidean_division_equations; lia.
    - intros r. cbn [app]. rewrite decode_2 by (Z.to_euclidean_division_equations; lia).
      f_equal. Z.to_euclidean_division_equations; lia. }
  destruct (Z.ltb_spec c 0x10000) as [H3 | H3].
  { rewrite Hs0. eexists. split; [reflexivity|].
    rewrite !land_3F, !shiftr_div by lia.
    change (2 ^ 6) with 64. change (2 ^ 12) with 4096.
    rewrite lor_E0, !lor_80 by (Z.to_euclidean_division_equations; lia).
    split.
    - repeat constructor; unfold is_byte; Z.to_euclidean_division_equations; lia.
    - intros r. cbn [app]. rewrite decode_3 by (Z.to_euclidean_division_equations; lia).
      f_equal. Z.to_euclidean_division_equations; lia. }
  eexists. split; [reflexivity|].
  rewrite !land_3F, !shiftr_div by lia.
  change (2 ^ 6) with 64. change (2 ^ 12) with 4096. change (2 ^ 18) with 262144.
  rewrite lor_F0, !lor_80 by (Z.to_euclidean_division_equations; lia).
  split.
  - repeat constructor; unfold is_byte; Z.to_euclidean_division_equations; lia.
  - intros r. cbn [app]. rewrite decode_4 by (Z.to_euclidean_division_equations; lia).
    f_equal. Z.to_euclidean_division_equations; lia.
Qed.

Lemma utf8_encode_roundtrip (s : pystr) :
  valid_unicode s ->
  exists bs, utf8_encode s = Ok bs
             /\ List.Forall is_byte bs
             /\ utf8_decode_replace bs = s.
Proof.
  induction 1 as [| c s [Hc Hs] _ IH].
  - exists []. repeat split. constructor.
  - destruct (utf8_char_roundtrip c Hc Hs) as (bs1 & E1 & B1 & D1).
    destruct IH as (rest & E2 & B2 & D2).
    exists (bs1 ++ rest). cbn [utf8_encode]. rewrite E1, E2.
    split; [reflexivity|]. split.
    + apply Forall_app. split; assumption.
    + rewrite D1, D2. reflexivity.
Qed.

Lemma decode_id_byte (b : Z) : is_byte b -> decode_id (b + numres) = Ok [b].
Proof.
  unfold is_byte, decode_id, int2byte. change numres with 3. intros Hb.
  replace ((0 <=? b + 3) && (b + 3 <? 3)) with false
    by (symmetry; apply andb_false_iff; right; apply Z.ltb_ge; lia).
  replace (b + 3 - 3) with b by lia.
  replace ((0 <=? b) && (b <? 256)) with true; [reflexivity|].
  symmetry. apply andb_true_intro. split; [apply Z.leb_le | apply Z.ltb_lt]; lia.
Qed.

Lemma decode_ids_bytes (bs : pybytes) :
  List.Forall is_byte bs ->
  rmap decode_id (List.map (fun c => c + numres) bs)
  = Ok (List.map (fun b => [b]) bs).
Proof.
  induction 1 as [| b bs Hb _ IH]; [reflexivity|].
  cbn [List.map rmap]. rewrite (decode_id_byte b Hb), IH. reflexivity.
Qed.

Lemma concat_singletons (bs : pybytes) :
  List.concat (List.map (fun b => [b]) bs) = bs.
Proof. induction bs as [| b bs IH]; [reflexivity|]. cbn. rewrite IH. reflexivity. Qed.

(** C6. Round trip of the default tokenizer: for every valid unicode string
    [s] (code points, no surrogates), encoding succeeds and decoding the
    encoded tensor returns [s]. *)
Theorem decode_encode_roundtrip (s : pystr) :
  valid_unicode s ->
  exists t, encodes default_tokenizer s = Ok t
            /\ decodes default_tokenizer t = Ok s.
Proof.
  intros Hs. destruct (utf8_encode_roundtrip s Hs) as (bs & E & B & D).
  exists (LMTensorText (List.map (fun c => c + numres) bs)). split.
  - unfold encodes, call_str. rewrite E. reflexivity.
  - unfold decodes, decodes_list. cbn [tolist].
    rewrite (decode_ids_bytes bs B), concat_singletons, D. reflexivity.
Qed.

Lemma decode_encode_roundtrip_witness :
  valid_unicode [104; 233; 0x20AC; 0x1F600]
  /\ exists t, encodes default_tokenizer [104; 233; 0x20AC; 0x1F600] = Ok t
               /\ decodes default_tokenizer t = Ok [104; 233; 0x20AC; 0x1F600].
Proof.
  assert (H : valid_unicode [104; 233; 0x20AC; 0x1F600]).
  { repeat constructor; unfold is_code_point; lia. }
  split; [exact H | exact (decode_encode_roundtrip _ H)].
Defined.

End TokenizerProofs.

(** ** Further properties of the tokenizer *)

Module TokenizerExtra.
Import Tokenizer TokenizerProofs.
Local Open Scope Z_scope.

(** *** The ids an encoding is made of *)

Lemma utf8_encode_char_Ok_not_surrogate c bs :
  is_code_point c -> utf8_encode_char c = Ok bs -> is_surrogate c = false.
Proof.
  unfold is_code_point, utf8_encode_char. intros Hc H.
  destruct (is_surrogate c) eqn:Hs; [|reflexivity]. exfalso.
  unfold is_surrogate in Hs. apply andb_prop in Hs. destruct Hs as [H1 H2].
  apply Z.leb_le in H1. apply Z.leb_le in H2.
  destruct (Z.ltb_spec c 0x80); [lia|].
  destruct (Z.ltb_spec c 0x800); [lia|].
  destruct (Z.ltb_spec c 0x10000); [discriminate | lia].
Qed.

Lemma utf8_encode_Ok_valid s bs :
  List.Forall is_code_point s -> utf8_encode s = Ok bs -> valid_unicode s.
Proof.
  intros Hs. revert bs. induction Hs as [| c s Hc _ IH]; intros bs H.
  - constructor.
  - cbn [utf8_encode] in H.
    destruct (utf8_encode_char c) as [b1 |] eqn:E1; [|discriminate].
    destruct (utf8_encode s) as [rest |] eqn:E2; [|discriminate].
    constructor.
    + split; [exact Hc | exact (utf8_encode_char_Ok_not_surrogate c b1 Hc E1)].
    + exact (IH rest eq_refl).
Qed.

Lemma utf8_encode_bytes s bs :
  valid_unicode s -> utf8_encode s = Ok bs -> List.Forall is_byte bs.
Proof.
  intros Hs H. destruct (utf8_encode_roundtrip s Hs) as (bs' & E & B & _).
  rewrite E in H. injection H as <-. exact B.
Qed.

Lemma Forall_map_shift bs :
  List.Forall is_byte bs ->
  List.Forall (fun i => numres <= i < vocab_size) (List.map (fun c => c + numres) bs).
Proof.
  induction 1 as [| b bs Hb _ IH]; constructor; [|exact IH].
  unfold is_byte in Hb. change numres with 3. change vocab_size with 259. lia.
Qed.

(** X1. Every id the tokenizer produces for a string of code points lies
    in the vocabulary, [0, vocab_size) = [0, 259); without the bos and eos
    sentinels every id is a shifted byte, in [numres, vocab_size) = [3, 259). *)
Theorem encoded_ids_in_vocab (self : ByteTextTokenizer) (s : pystr) (t : text_tensor) :
  List.Forall is_code_point s ->
  call_str self s = Ok t ->
  List.Forall (fun i => 0 <= i < vocab_size) (tolist t)
  /\ (add_bos self = false -> add_eos self = false ->
      List.Forall (fun i => numres <= i < vocab_size) (tolist t)).
Proof.
  intros Hs H. unfold call_str in H.
  destruct (utf8_encode s) as [bs |] eqn:E; [|discriminate].
  pose proof (utf8_encode_bytes s bs (utf8_encode_Ok_valid s bs Hs E) E) as HB.
  pose proof (Forall_map_shift bs HB) as Hshift.
  assert (Hweak : List.Forall (fun i => 0 <= i < vocab_size)
                    (List.map (fun c => c + numres) bs)).
  { eapply List.Forall_impl; [|exact Hshift]. cbn beta. change numres with 3. lia. }
  assert (Hout : tolist t
                 = (if add_eos self
                    then (if add_bos self
                          then [bos_token_id] ++ List.map (fun c => c + numres) bs
                          else List.map (fun c => c + numres) bs) ++ [eos_token_id]
                    else (if add_bos self
                          then [bos_token_id] ++ List.map (fun c => c + numres) bs
                          else List.map (fun c => c + numres) bs))).
  { cbv zeta in H. destruct (ls_lm self); injection H as <-; reflexivity. }
  rewrite Hout. split.
  - assert (Hb : 0 <= bos_token_id < vocab_size) by (cbv; split; congruence).
    assert (He : 0 <= eos_token_id < vocab_size) by (cbv; split; congruence).
    assert (HFb : List.Forall (fun i => 0 <= i < vocab_size) [bos_token_id])
      by (constructor; [exact Hb | constructor]).
    assert (HFe : List.Forall (fun i => 0 <= i < vocab_size) [eos_token_id])
      by (constructor; [exact He | constructor]).
    destruct (add_eos self), (add_bos self);
      repeat (apply List.Forall_app; split); assumption.
  - intros -> ->. exact Hshift.
Qed.

Lemma encoded_ids_in_vocab_witness :
  exists t, call_str (init true true true) [104; 233] = Ok t
            /\ List.Forall (fun i => 0 <= i < vocab_size) (tolist t).
Proof.
  eexists. split; [reflexivity|].
  refine (proj1 (encoded_ids_in_vocab (init true true true) [104; 233] _ _ eq_refl)).
  repeat constructor; unfold is_code_point; lia.
Defined.

(** *** Which id lists can be decoded *)

Lemma decode_id_in_vocab id_ :
  is_vocab_id id_ = true ->
  exists bs, decode_id id_ = Ok bs /\ List.Forall is_byte bs.
Proof.
  unfold is_vocab_id, decode_id, int2byte. change vocab_size with 259.
  change numres with 3. intros H. apply andb_prop in H. destruct H as [H0 H1].
  apply Z.leb_le in H0. apply Z.ltb_lt in H1.
  destruct (Z.ltb_spec id_ 3) as [Hlt | Hge].
  - replace (0 <=? id_) with true by (symmetry; apply Z.leb_le; lia).
    cbn [andb]. eexists. split; [reflexivity|].
    assert (Hid : id_ = 0 \/ id_ = 1 \/ id_ = 2) by lia.
    destruct Hid as [-> | [-> | ->]]; cbn;
      repeat (constructor; [unfold is_byte; lia|]); constructor.
  - rewrite andb_false_r.
    replace ((0 <=? id_ - 3) && (id_ - 3 <? 256)) with true.
    + eexists. split; [reflexivity|].
      constructor; [unfold is_byte; lia | constructor].
    + symmetry. apply andb_true_intro.
      split; [apply Z.leb_le | apply Z.ltb_lt]; lia.
Qed.

Lemma decode_id_out_of_vocab id_ :
  is_vocab_id id_ = false -> decode_id id_ = Raise StructError.
Proof.
  unfold is_vocab_id, decode_id, int2byte. change vocab_size with 259.
  change numres with 3. intros H. apply andb_false_iff in H.
  assert (Hout : id_ < 0 \/ 259 <= id_).
  { destruct H as [H | H]; [left; apply Z.leb_gt in H | right; apply Z.ltb_ge in H]; lia. }
  replace ((0 <=? id_) && (id_ <? 3)) with false.
  2:{ symmetry. apply andb_false_iff.
      destruct Hout; [left; apply Z.leb_gt | right; apply Z.ltb_ge]; lia. }
  replace ((0 <=? id_ - 3) && (id_ - 3 <? 256)) with false; [reflexivity|].
  symmetry. apply andb_false_iff.
  destruct Hout; [left; apply Z.leb_gt | right; apply Z.ltb_ge]; lia.
Qed.

Lemma rmap_decode_id_cases (o : list Z) :
  match rmap decode_id o with
  | Ok bss => forallb is_vocab_id o = true /\ List.Forall (List.Forall is_byte) bss
  | Raise e => e = StructError /\ forallb is_vocab_id o = false
  end.
Proof.
  induction o as [| id_ o IH]; [split; [reflexivity | constructor]|].
  cbn [rmap forallb]. destruct (is_vocab_id id_) eqn:Hid.
  - destruct (decode_id_in_vocab id_ Hid) as (bs & -> & HB).
    destruct (rmap decode_id o) as [bss | e].
    + destruct IH as [IH1 IH2]. split; [exact IH1 | constructor; assumption].
    + exact IH.
  - rewrite (decode_id_out_of_vocab id_ Hid). split; reflexivity.
Qed.

(** X2. [decodes] returns a string exactly when every id lies in the
    vocabulary [0, vocab_size); otherwise it raises [struct.error], for a
    negative id as for one that is too large. *)
Theorem decodes_raises_iff_out_of_vocab (self : ByteTextTokenizer) (o : list Z) :
  match decodes_list self o with
  | Ok _ => forallb is_vocab_id o = true
  | Raise e => e = StructError /\ forallb is_vocab_id o = false
  end.
Proof.
  unfold decodes_list. pose proof (rmap_decode_id_cases o) as H.
  destruct (rmap decode_id o) as [bss | e]; [exact (proj1 H) | exact H].
Qed.

(** *** Sentinels *)

Lemma utf8_decode_ascii (a r : pybytes) :
  List.Forall (fun c => 0 <= c < 0x80) a ->
  utf8_decode_replace (a ++ r) = a ++ utf8_decode_replace r.
Proof.
  induction 1 as [| c a Hc _ IH]; [reflexivity|].
  cbn [app]. rewrite decode_1 by exact Hc. rewrite IH. reflexivity.
Qed.

Lemma utf8_encode_roundtrip_app (s : pystr) :
  valid_unicode s ->
  exists bs, utf8_encode s = Ok bs
             /\ List.Forall is_byte bs
             /\ forall r, utf8_decode_replace (bs ++ r) = s ++ utf8_decode_replace r.
Proof.
  induction 1 as [| c s [Hc Hs] _ IH].
  - exists []. repeat split. constructor.
  - destruct (utf8_char_roundtrip c Hc Hs) as (bs1 & E1 & B1 & D1).
    destruct IH as (rest & E2 & B2 & D2).
    exists (bs1 ++ rest). cbn [utf8_encode]. rewrite E1, E2.
    split; [reflexivity|]. split.
    + apply List.Forall_app. split; assumption.
    + intros r. rewrite <- List.app_assoc, D1, D2. reflexivity.
Qed.

Lemma rmap_app {A B} (f : A -> result B) (a b : list A) (x y : list B) :
  rmap f a = Ok x -> rmap f b = Ok y -> rmap f (a ++ b) = Ok (x ++ y).
Proof.
  revert x. induction a as [| h a IH]; intros x Ha Hb.
  - injection Ha as <-. exact Hb.
  - cbn [rmap app] in *. destruct (f h) as [h' |]; [|discriminate].
    destruct (rmap f a) as [a' |]; [|discriminate].
    injection Ha as <-. rewrite (IH a' eq_refl Hb). reflexivity.
Qed.

(** What [decodes] makes of [__call__]'s output, for every setting of the
    sentinel flags. *)
Lemma call_str_decodes (self : ByteTextTokenizer) (s : pystr) :
  valid_unicode s ->
  exists t,
    call_str self s = Ok t
    /\ decodes self t
       = Ok ((if add_bos self then text bos_token else [])
             ++ s ++ (if add_eos self then text eos_token else [])).
Proof.
  intros Hs. destruct (utf8_encode_roundtrip_app s Hs) as (bs & E & B & D).
  set (ids := List.map (fun c => c + numres) bs).
  set (pre := if add_bos self then [bos_token_id] else []).
  set (post := if add_eos self then [eos_token_id] else []).
  assert (Hcall : exists t, call_str self s = Ok t /\ tolist t = (pre ++ ids) ++ post).
  { unfold call_str. rewrite E. cbv zeta. fold ids.
    destruct (ls_lm self); eexists; (split; [reflexivity|]);
      cbn [tolist]; unfold pre, post;
      destruct (add_bos self), (add_eos self); cbn [app];
      rewrite ?List.app_nil_r; reflexivity. }
  destruct Hcall as (t & Ht & Hl). exists t. split; [exact Ht|].
  unfold decodes, decodes_list. rewrite Hl. unfold ids.
  assert (Hpre : rmap decode_id pre
                 = Ok (if add_bos self then [text bos_token] else [])).
  { unfold pre. destruct (add_bos self); reflexivity. }
  assert (Hpost : rmap decode_id post
                  = Ok (if add_eos self then [text eos_token] else [])).
  { unfold post. destruct (add_eos self); reflexivity. }
  rewrite (rmap_app _ _ _ _ _
             (rmap_app _ _ _ _ _ Hpre (decode_ids_bytes bs B)) Hpost).
  rewrite !List.concat_app, concat_singletons. f_equal.
  assert (Ha : forall tok, tok = bos_token \/ tok = eos_token ->
                 List.Forall (fun c => 0 <= c < 0x80) (text tok)).
  { intros tok [-> | ->]; apply List.Forall_forall; intros c Hc;
      cbv in Hc; intuition (subst; lia). }
  assert (Hcat : forall (f : bool) (tok : string),
             List.concat (if f then [text tok] else []) = if f then text tok else []).
  { intros [|] tok; cbn [List.concat]; rewrite ?List.app_nil_r; reflexivity. }
  rewrite !Hcat. rewrite <- List.app_assoc.
  assert (Hfront : forall r,
             utf8_decode_replace ((if add_bos self then text bos_token else []) ++ r)
             = (if add_bos self then text bos_token else [])
               ++ utf8_decode_replace r).
  { intros r. destruct (add_bos self); [|reflexivity].
    apply utf8_decode_ascii. apply Ha. left. reflexivity. }
  rewrite Hfront, D. do 2 f_equal.
  destruct (add_eos self); [|reflexivity].
  rewrite <- (List.app_nil_r (text eos_token)) at 1.
  rewrite utf8_decode_ascii by (apply Ha; right; reflexivity).
  apply List.app_nil_r.
Qed.

(** X3. With the sentinels switched on the round trip does not return the
    string: the bos and eos ids decode to the literal texts "<bos>" and
    "<eos>", so decoding the encoding of a valid string [s] gives
    "<bos>" + s + "<eos>" (each part present when its flag is set). *)
Theorem sentinels_decode_to_their_names (self : ByteTextTokenizer) (s : pystr) :
  valid_unicode s ->
  exists t,
    call_str self s = Ok t
    /\ decodes self t
       = Ok ((if add_bos self then text bos_token else [])
             ++ s ++ (if add_eos self then text eos_token else [])).
Proof. exact (call_str_decodes self s). Qed.

Lemma sentinels_decode_to_their_names_witness :
  exists t,
    call_str (init true true true) [104; 105] = Ok t
    /\ decodes (init true true true) t
       = Ok ([60; 98; 111; 115; 62] ++ [104; 105] ++ [60; 101; 111; 115; 62]).
Proof.
  apply (sentinels_decode_to_their_names (init true true true) [104; 105]).
  repeat constructor; unfold is_code_point; lia.
Defined.

(** X7. Two valid strings with the same encoding are the same string: the
    tokenizer, with any setting of its flags, is injective. *)
Theorem call_str_injective (self : ByteTextTokenizer) (s1 s2 : pystr) (t : text_tensor) :
  valid_unicode s1 -> valid_unicode s2 ->
  call_str self s1 = Ok t -> call_str self s2 = Ok t ->
  s1 = s2.
Proof.
  intros H1 H2 E1 E2.
  destruct (call_str_decodes self s1 H1) as (t1 & C1 & D1).
  destruct (call_str_decodes self s2 H2) as (t2 & C2 & D2).
  rewrite E1 in C1. injection C1 as <-. rewrite E2 in C2. injection C2 as <-.
  rewrite D1 in D2. injection D2 as D2.
  apply List.app_inv_head in D2. apply List.app_inv_tail in D2. exact D2.
Qed.

Lemma call_str_injective_witness :
  exists t, call_str default_tokenizer [104; 233] = Ok t
            /\ ([104; 233] : pystr) = [104; 233].
Proof.
  eexists. split; [reflexivity|].
  eapply (call_str_injective default_tokenizer [104; 233] [104; 233]);
    [ repeat constructor; unfold is_code_point; lia
    | repeat constructor; unfold is_code_point; lia
    | reflexivity | reflexivity ].
Defined.

(** *** Lists of strings *)

Lemma utf8_encode_app (a b : pystr) :
  utf8_encode (a ++ b)
  = match utf8_encode a with
    | Ok x => match utf8_encode b with
              | Ok y => Ok (x ++ y)
              | Raise e => Raise e
              end
    | Raise e => Raise e
    end.
Proof.
  induction a as [| c a IH].
  - cbn. destruct (utf8_encode b); reflexivity.
  - cbn [app utf8_encode]. rewrite IH.
    destruct (utf8_encode_char c) as [bs |]; [|reflexivity].
    destruct (utf8_encode a) as [x |]; [|reflexivity].
    destruct (utf8_encode b) as [y |]; [|reflexivity].
    rewrite List.app_assoc. reflexivity.
Qed.

Lemma rmap_utf8_encode_concat (o : list pystr) :
  utf8_encode (List.concat o)
  = match rmap utf8_encode o with
    | Ok bss => Ok (List.concat bss)
    | Raise e => Raise e
    end.
Proof.
  induction o as [| s o IH]; [reflexivity|].
  cbn [List.concat rmap]. rewrite utf8_encode_app, IH.
  destruct (utf8_encode s) as [x |]; [|reflexivity].
  destruct (rmap utf8_encode o) as [bss |]; reflexivity.
Qed.

(** X4. Called on a list of strings the tokenizer forgets the boundaries:
    the result, ids or exception, is that of the single string obtained by
    concatenating the list, with one bos and one eos around the whole. *)
Theorem call_list_is_call_str_of_concat (self : ByteTextTokenizer) (o : list pystr) :
  call_list self o = call_str self (List.concat o).
Proof.
  unfold call_list, call_str. rewrite rmap_utf8_encode_concat.
  destruct (rmap utf8_encode o); reflexivity.
Qed.

(** *** Length of an encoding *)

Lemma utf8_encode_char_length c bs :
  utf8_encode_char c = Ok bs -> (1 <= length bs <= 4)%nat.
Proof.
  unfold utf8_encode_char. intros H.
  destruct (c <? 0x80); [injection H as <-; cbn; lia|].
  destruct (c <? 0x800); [injection H as <-; cbn; lia|].
  destruct (c <? 0x10000).
  - destruct (is_surrogate c); [discriminate|]. injection H as <-. cbn. lia.
  - injection H as <-. cbn. lia.
Qed.

Lemma utf8_encode_length s bs :
  utf8_encode s = Ok bs -> (length s <= length bs <= 4 * length s)%nat.
Proof.
  revert bs. induction s as [| c s IH]; intros bs H.
  - injection H as <-. cbn. lia.
  - cbn [utf8_encode] in H.
    destruct (utf8_encode_char c) as [b1 |] eqn:E1; [|discriminate].
    destruct (utf8_encode s) as [rest |] eqn:E2; [|discriminate].
    injection H as <-. rewrite List.length_app. cbn [length].
    pose proof (utf8_encode_char_length c b1 E1). specialize (IH rest eq_refl). lia.
Qed.

(** X5. An encoding has one id per UTF-8 byte, plus one per sentinel: for a
    string of n code points it holds between n and 4n byte ids. *)
Theorem encoding_length_bounds (self : ByteTextTokenizer) (s : pystr) (t : text_tensor) :
  call_str self s = Ok t ->
  exists nbytes : nat,
    (length s <= nbytes <= 4 * length s)%nat
    /\ length (tolist t)
       = (nbytes + (if add_bos self then 1 else 0)
                 + (if add_eos self then 1 else 0))%nat.
Proof.
  unfold call_str. intros H.
  destruct (utf8_encode s) as [bs |] eqn:E; [|discriminate].
  exists (length bs). split; [exact (utf8_encode_length s bs E)|].
  cbv zeta in H.
  destruct (ls_lm self); injection H as <-; cbn [tolist];
    destruct (add_bos self), (add_eos self);
    rewrite ?List.length_app, ?List.length_map; cbn [length];
    rewrite ?List.length_map; lia.
Qed.

Lemma encoding_length_bounds_witness :
  exists t nbytes,
    call_str default_tokenizer [104; 0x20AC] = Ok t
    /\ (2 <= nbytes <= 8)%nat /\ length (tolist t) = (nbytes + 0 + 0)%nat.
Proof.
  eexists.
  destruct (encoding_length_bounds default_tokenizer [104; 0x20AC] _ eq_refl)
    as (n & Hn & Hl).
  exists n. split; [reflexivity|]. split; [exact Hn | exact Hl].
Defined.

(** *** What the decoder returns *)

Lemma valid_char (v : Z) (s : pystr) :
  0 <= v <= 0x10FFFF -> v < 0xD800 \/ 0xDFFF < v ->
  valid_unicode s -> valid_unicode (v :: s).
Proof.
  intros Hv Hs Hrest. constructor; [|exact Hrest]. split; [exact Hv|].
  unfold is_surrogate. apply andb_false_iff.
  destruct Hs; [left; apply Z.leb_gt | right; apply Z.leb_gt]; lia.
Qed.

Lemma valid_replacement (s : pystr) :
  valid_unicode s -> valid_unicode (REPLACEMENT :: s).
Proof. intros H. apply valid_char; [unfold REPLACEMENT; lia | right; unfold REPLACEMENT; lia | exact H]. Qed.

Lemma is_continuation_byte_range ch :
  is_continuation_byte ch = true -> 0x80 <= ch < 0xC0.
Proof.
  unfold is_continuation_byte. intros H. apply andb_prop in H.
  destruct H as [H1 H2]. apply Z.leb_le in H1. apply Z.ltb_lt in H2. lia.
Qed.

Ltac shifts :=
  rewrite ?shiftl_mul by lia;
  change (2 ^ 6) with 64; change (2 ^ 12) with 4096; change (2 ^ 18) with 262144.

(** The decoder of the runtime never produces a surrogate or a value
    outside the code space, whatever bytes it reads. *)
Lemma utf8_decode_valid_aux (n : nat) :
  forall bs, (length bs <= n)%nat -> List.Forall is_byte bs ->
             valid_unicode (utf8_decode_replace bs).
Proof.
  induction n as [| n IH]; intros bs Hlen HB.
  { destruct bs; [constructor | cbn in Hlen; lia]. }
  destruct bs as [| ch r1]; [constructor|].
  apply List.Forall_cons_iff in HB. destruct HB as [Hch HB1]. unfold is_byte in Hch.
  assert (IH1 : valid_unicode (utf8_decode_replace r1))
    by (apply IH; [cbn in Hlen; lia | exact HB1]).
  cbn [utf8_decode_replace].
  destruct (Z.ltb_spec ch 0x80) as [L1 | L1].
  { apply valid_char; [lia | left; lia | exact IH1]. }
  destruct (Z.ltb_spec ch 0xE0) as [L2 | L2].
  { destruct (Z.ltb_spec ch 0xC2) as [L3 | L3]; [apply valid_replacement; exact IH1|].
    destruct r1 as [| ch2 r2]; [apply valid_replacement; constructor|].
    apply List.Forall_cons_iff in HB1. destruct HB1 as [Hch2 HB2].
    assert (IH2 : valid_unicode (utf8_decode_replace r2))
      by (apply IH; [cbn in Hlen; lia | exact HB2]).
    destruct (is_continuation_byte ch2) eqn:C2; cbn [negb];
      [|apply valid_replacement; exact IH1].
    apply is_continuation_byte_range in C2.
    shifts. apply valid_char; [lia | left; lia | exact IH2]. }
  destruct (Z.ltb_spec ch 0xF0) as [L3 | L3].
  { destruct r1 as [| ch2 r2]; [apply valid_replacement; constructor|].
    apply List.Forall_cons_iff in HB1. destruct HB1 as [Hch2 HB2].
    assert (IH2 : valid_unicode (utf8_decode_replace r2))
      by (apply IH; [cbn in Hlen; lia | exact HB2]).
    destruct (is_continuation_byte ch2) eqn:C2; cbn [negb orb];
      [|apply valid_replacement; exact IH1].
    apply is_continuation_byte_range in C2.
    destruct (if ch2 <? 0xA0 then ch =? 0xE0 else ch =? 0xED) eqn:Hover;
      [apply valid_replacement; exact IH1|].
    assert (Hrange : (ch = 0xE0 -> 0xA0 <= ch2) /\ (ch = 0xED -> ch2 < 0xA0)).
    { destruct (Z.ltb_spec ch2 0xA0); apply Z.eqb_neq in Hover; lia. }
    destruct r2 as [| ch3 r3]; [apply valid_replacement; constructor|].
    apply List.Forall_cons_iff in HB2. destruct HB2 as [Hch3 HB3].
    assert (IH3 : valid_unicode (utf8_decode_replace r3))
      by (apply IH; [cbn in Hlen; lia | exact HB3]).
    destruct (is_continuation_byte ch3) eqn:C3; cbn [negb];
      [|apply valid_replacement; exact IH2].
    apply is_continuation_byte_range in C3.
    shifts. apply valid_char; [lia | | exact IH3].
    destruct (Z.eq_dec ch 0xED); [left | destruct (Z.ltb_spec ch 0xED); [left | right]]; lia. }
  destruct (Z.ltb_spec ch 0xF5) as [L4 | L4]; [|apply valid_replacement; exact IH1].
  destruct r1 as [| ch2 r2]; [apply valid_replacement; constructor|].
  apply List.Forall_cons_iff in HB1. destruct HB1 as [Hch2 HB2].
  assert (IH2 : valid_unicode (utf8_decode_replace r2))
    by (apply IH; [cbn in Hlen; lia | exact HB2]).
  destruct (is_continuation_byte ch2) eqn:C2; cbn [negb orb];
    [|apply valid_replacement; exact IH1].
  apply is_continuation_byte_range in C2.
  destruct (if ch2 <? 0x90 then ch =? 0xF0 else ch =? 0xF4) eqn:Hover;
    [apply valid_replacement; exact IH1|].
  assert (Hrange : (ch = 0xF0 -> 0x90 <= ch2) /\ (ch = 0xF4 -> ch2 < 0x90)).
  { destruct (Z.ltb_spec ch2 0x90); apply Z.eqb_neq in Hover; lia. }
  destruct r2 as [| ch3 r3]; [apply valid_replacement; constructor|].
  apply List.Forall_cons_iff in HB2. destruct HB2 as [Hch3 HB3].
  assert (IH3 : valid_unicode (utf8_decode_replace r3))
    by (apply IH; [cbn in Hlen; lia | exact HB3]).
  destruct (is_continuation_byte ch3) eqn:C3; cbn [negb];
    [|apply valid_replacement; exact IH2].
  apply is_continuation_byte_range in C3.
  destruct r3 as [| ch4 r4]; [apply valid_replacement; constructor|].
  apply List.Forall_cons_iff in HB3. destruct HB3 as [Hch4 HB4].
  assert (IH4 : valid_unicode (utf8_decode_replace r4))
    by (apply IH; [cbn in Hlen; lia | exact HB4]).
  destruct (is_continuation_byte ch4) eqn:C4; cbn [negb];
    [|apply valid_replacement; exact IH3].
  apply is_continuation_byte_range in C4.
  shifts. apply valid_char; [lia | right; lia | exact IH4].
Qed.

Lemma Forall_concat_bytes (bss : list pybytes) :
  List.Forall (List.Forall is_byte) bss -> List.Forall is_byte (List.concat bss).
Proof.
  induction 1 as [| bs bss Hb _ IH]; [constructor|].
  cbn [List.concat]. apply List.Forall_app. split; assumption.
Qed.

(** X6. Whatever [decodes] returns is a valid unicode string: malformed
    byte sequences are replaced by U+FFFD, never passed on as surrogates or
    out-of-range code points.  So a decoded text can always be encoded
    again. *)
Theorem decoded_text_is_valid (self other : ByteTextTokenizer) (o : list Z) (s : pystr) :
  decodes_list self o = Ok s ->
  valid_unicode s /\ exists t, call_str other s = Ok t.
Proof.
  unfold decodes_list. intros H. pose proof (rmap_decode_id_cases o) as Hc.
  destruct (rmap decode_id o) as [bss |]; [|discriminate].
  injection H as <-. destruct Hc as [_ HB].
  assert (Hv : valid_unicode (utf8_decode_replace (List.concat bss))).
  { apply (utf8_decode_valid_aux (length (List.concat bss))); [lia|].
    apply Forall_concat_bytes. exact HB. }
  split; [exact Hv|].
  destruct (call_str_decodes other _ Hv) as (t & Ht & _). exists t. exact Ht.
Qed.

Lemma decoded_text_is_valid_witness :
  exists s, decodes_list default_tokenizer [0xE2 + 3; 0x82 + 3; 0x41 + 3] = Ok s
            /\ valid_unicode s.
Proof.
  eexists. split; [reflexivity|].
  exact (proj1 (decoded_text_is_valid default_tokenizer default_tokenizer
                  [0xE2 + 3; 0x82 + 3; 0x41 + 3] _ eq_refl)).
Defined.

End TokenizerExtra.

(** ** Proofs: attention and feed-forward *)

Lemma rbind_Ok {A B} (m : result A) (k : A -> result B) (b : B) :
  rbind m k = Ok b -> exists a, m = Ok a /\ k a = Ok b.
Proof. destruct m as [a | e]; cbn; [eauto | discriminate]. Qed.

Ltac inv_bind H :=
  let a := fresh "a" in
  let E := fresh "E" in
  apply rbind_Ok in H; destruct H as (a & E & H).

Module AttnProofs.
Import Attn.
Local Open Scope R_scope.

Lemma MASK_VAL_eq : MASK_VAL = -10000.
Proof. unfold MASK_VAL. lra. Qed.

(** *** The two fills *)

Lemma causal_fill_at dots b h i j :
  causal_mask (I4 dots) (J4 dots) i j = true ->
  at4 (causal_fill dots) b h i j = MASK_VAL.
Proof. intros H. cbn. rewrite H. reflexivity. Qed.


Lemma bidx_in_range size target i :
  bcast_to size target = true -> size = target -> (i < target)%nat ->
  bidx size i = i.
Proof.
  unfold bidx. intros _ -> Hi.
  destruct (Nat.eqb_spec target 1) as [-> | _]; [lia | reflexivity].
Qed.


(** Inversion of [masked_scores]: the scores are the scaled products, filled
    by the padding mask when there is one, then by the causal mask. *)
Lemma masked_scores_inv self x context mask cmask s v :
  masked_scores self x context mask cmask = Ok (s, v) ->
  exists q k dots0 im dots1,
    einsum_qk q k = Ok dots0
    /\ input_mask_of (B3 x) (N3 x) (I4 k) (exists_ context) mask cmask = Ok im
    /\ match im with
       | Some m => masked_fill_not (scale_by (scale self) dots0) m
       | None => Ok (scale_by (scale self) dots0)
       end = Ok dots1
    /\ s = (if causal self then causal_fill dots1 else dots1)
    /\ I4 k = J4 s.
Proof.
  unfold masked_scores, mbind, result_bind. intros H.
  inv_bind H. inv_bind H. inv_bind H. inv_bind H. inv_bind H. inv_bind H.
  inv_bind H. inv_bind H. inv_bind H.
  injection H as Hs Hv.
  exists a2, a3, a6, a5, a7. repeat split; try assumption.
  - symmetry. exact Hs.
  - subst s.
    assert (J4 a7 = I4 a3) as <-.
    { destruct a5 as [m |].
      - unfold masked_fill_not in E7.
        destruct (_ && _) in E7; [|discriminate]. injection E7 as <-. cbn.
        unfold einsum_qk in E6. destruct (_ && _) in E6; [|discriminate].
        injection E6 as <-. reflexivity.
      - injection E7 as <-. cbn.
        unfold einsum_qk in E6. destruct (_ && _) in E6; [|discriminate].
        injection E6 as <-. reflexivity. }
    destruct (causal self); reflexivity.
Qed.

Lemma masked_scores_causal self x context mask cmask s v b h i j :
  masked_scores self x context mask cmask = Ok (s, v) ->
  causal self = true ->
  causal_mask (I4 s) (J4 s) i j = true ->
  at4 s b h i j = MASK_VAL.
Proof.
  intros H Hc Hm.
  destruct (masked_scores_inv _ _ _ _ _ _ _ H) as (q & k & d0 & im & d1 & _ & _ & _ & Hs & _).
  rewrite Hc in Hs. subst s. apply causal_fill_at. exact Hm.
Qed.


Lemma masked_scores_entry self x context mask cmask s v :
  masked_scores self x context mask cmask = Ok (s, v) ->
  exists q k dots0,
    einsum_qk q k = Ok dots0
    /\ forall b h i j,
         at4 s b h i j = MASK_VAL
         \/ at4 s b h i j = at4 dots0 b h i j * scale self.
Proof.
  intros H.
  destruct (masked_scores_inv _ _ _ _ _ _ _ H)
    as (q & k & d0 & im & d1 & Hd0 & _ & Hfill & Hs & _).
  exists q, k, d0. split; [exact Hd0|]. intros b h i j.
  assert (Hd1 : at4 d1 b h i j = MASK_VAL
                \/ at4 d1 b h i j = at4 d0 b h i j * scale self).
  { destruct im as [m |].
    - unfold masked_fill_not in Hfill. destruct (_ && _) in Hfill; [|discriminate].
      injection Hfill as <-. cbn [at4 scale_by].
      destruct (negb _); [left | right]; reflexivity.
    - injection Hfill as <-. right. reflexivity. }
  rewrite Hs. destruct (causal self); [|exact Hd1].
  cbn [at4 causal_fill]. destruct (causal_mask _ _ i j); [left; reflexivity | exact Hd1].
Qed.

Lemma forward_full_inv rng dropout4 self x context mask cmask g out attn g' :
  forward_full rng dropout4 self x context mask cmask g = Ok (out, attn, g') ->
  exists s v, masked_scores self x context mask cmask = Ok (s, v)
              /\ attn = softmax s.
Proof.
  unfold forward_full, mbind, result_bind. intros H. inv_bind H.
  destruct a as [s v]. exists s, v. split; [exact E|].
  cbn [fst snd] in H. destruct (dropout4 _ _ g) as [attn_ g1].
  inv_bind H. inv_bind H. injection H as _ Ha _. symmetry. exact Ha.
Qed.

Lemma ex_init c : Attention_init 1 1 c 0.1 false ex_params = Ok (ex_attention c).
Proof. reflexivity. Qed.

Lemma Rpower_1_base y : Rpower 1 y = 1.
Proof. unfold Rpower. rewrite ln_1, Rmult_0_r, exp_0. reflexivity. Qed.

Lemma half_of_two_equal (a : R) : exp a / (0 + exp a + exp a) = 1 / 2.
Proof. pose proof (exp_pos a). field. lra. Qed.

(** *** C1 *)

(** C1, as stated, fails.  With dim = 1, one head, q = x, k = -x and
    x = [[100], [100]], every scaled product equals -1e4, the fill value
    itself, so the causal [Attention] gives weight 1/2, not 0, from query
    position 0 to the future key position 1. *)
Lemma causal_future_weight_nonzero :
  exists self out attn g,
    Attention_init 1 1 true 0.1 false ex_params = Ok self
    /\ causal self = true
    /\ forward_full unit eval_dropout4 self ex_x None None None tt
       = Ok (out, attn, g)
    /\ at4 attn 0 0 0 1 = 1 / 2
    /\ at4 attn 0 0 0 1 <> 0.
Proof.
  assert (H : exists r,
             forward_full unit eval_dropout4 (ex_attention true) ex_x
               None None None tt = Ok r)
    by (eexists; vm_compute; reflexivity).
  destruct H as [[[out attn] g] H].
  exists (ex_attention true), out, attn, g.
  split; [reflexivity|]. split; [reflexivity|]. split; [exact H|].
  destruct (forward_full_inv _ _ _ _ _ _ _ _ _ _ _ H) as (s & v & Hs & ->).
  cbn in Hs. injection Hs as <- _.
  cbn. change (causal_mask 2 2 0 1) with true.
  change (causal_mask 2 2 0 0) with false. cbn iota.
  rewrite Rpower_1_base, MASK_VAL_eq.
  replace ((0 + (0 + 100 * 1 + 0) * (0 + 100 * -1 + 0)) * 1) with (-10000) by lra.
  rewrite half_of_two_equal. split; [reflexivity | lra].
Qed.

(** C1, amended.  In a causal [Attention], at every key position [j] that
    lies in the future of the query position [i] (j - i >= len_j - len_i + 1,
    which is j > i when the two lengths agree), in every batch and head, the
    score is overwritten with the finite fill value [MASK_VAL] = -1e4, and
    the attention matrix is the softmax of the scores so filled.  The weight
    of a future position is what the softmax makes of that finite score
    next to the other scores of its row: it is not zero in general. *)
Theorem causal_future_score_filled
    rng dropout4 self x context mask cmask g out attn g' b h i j :
  causal self = true ->
  forward_full rng dropout4 self x context mask cmask g = Ok (out, attn, g') ->
  (Z.of_nat (J4 attn) - Z.of_nat (I4 attn) + 1 <= Z.of_nat j - Z.of_nat i)%Z ->
  exists s v,
    masked_scores self x context mask cmask = Ok (s, v)
    /\ attn = softmax s
    /\ at4 s b h i j = MASK_VAL
    /\ MASK_VAL = -10000.
Proof.
  intros Hc H Hfut.
  destruct (forward_full_inv _ _ _ _ _ _ _ _ _ _ _ H) as (s & v & Hs & ->).
  exists s, v. split; [exact Hs|]. split; [reflexivity|].
  split; [|exact MASK_VAL_eq].
  apply (masked_scores_causal _ _ _ _ _ _ _ _ _ _ _ Hs Hc).
  unfold causal_mask. apply Z.leb_le. exact Hfut.
Qed.

Lemma causal_future_score_filled_witness :
  exists out attn g s v,
    forward_full unit eval_dropout4 (ex_attention true) ex_zero None None None tt
    = Ok (out, attn, g)
    /\ masked_scores (ex_attention true) ex_zero None None None = Ok (s, v)
    /\ attn = softmax s
    /\ at4 s 0 0 0 1 = MASK_VAL.
Proof.
  assert (H : exists r,
             forward_full unit eval_dropout4 (ex_attention true) ex_zero
               None None None tt = Ok r)
    by (eexists; vm_compute; reflexivity).
  destruct H as [[[out attn] g] H].
  destruct (causal_future_score_filled unit eval_dropout4 (ex_attention true)
              ex_zero None None None tt out attn g 0%nat 0%nat 0%nat 1%nat
              eq_refl H)
    as (s & v & Hs & Ha & Hfill & _).
  - destruct (forward_full_inv _ _ _ _ _ _ _ _ _ _ _ H) as (s & v & Hs & ->).
    cbn in Hs. injection Hs as <- _. cbn. lia.
  - exists out, attn, g, s, v. repeat split; assumption.
Defined.

(** *** C3 *)




(** *** C4 *)

Lemma Rpower_base_inj (a c y : R) :
  0 < a -> 0 < c -> y <> 0 -> Rpower a y = Rpower c y -> a = c.
Proof.
  intros Ha Hc Hy H. unfold Rpower in H. apply exp_inv in H.
  apply Rmult_eq_reg_l in H; [|exact Hy]. apply ln_inv; assumption.
Qed.

(** C4: the code does not do what the claim says.  [Attention.__init__]
    sets the scale to dim ** -0.5 whatever the head count, and every score
    that is not filled is the raw product times that scale; with more than
    one head this is not (dim / heads) ** -0.5. *)
Theorem attention_scale_ignores_heads
    dim heads c dp sa (p : AttentionParams) self :
  Attention_init dim heads c dp sa p = Ok self ->
  (1 < heads)%nat ->
  scale self = Rpower (INR dim) (- 0.5)
  /\ scale self <> Rpower (INR dim / INR heads) (- 0.5)
  /\ forall x context mask cmask s v,
       masked_scores self x context mask cmask = Ok (s, v) ->
       exists q k dots0,
         einsum_qk q k = Ok dots0
         /\ forall b h i j,
              at4 s b h i j = MASK_VAL
              \/ at4 s b h i j = at4 dots0 b h i j * Rpower (INR dim) (- 0.5).
Proof.
  unfold Attention_init. intros H Hh.
  destruct (Nat.eqb_spec dim 0) as [-> | Hd]; [discriminate|].
  injection H as <-. cbn [scale].
  assert (Hdim : 0 < INR dim) by (apply lt_0_INR; lia).
  assert (Hheads : 1 < INR heads) by (apply (lt_INR 1); lia).
  split; [reflexivity|]. split.
  - intros Heq. apply Rpower_base_inj in Heq; try lra.
    + assert (INR dim * INR heads = INR dim) by (rewrite Heq at 1; field; lra).
      nra.
    + apply Rdiv_lt_0_compat; lra.
  - intros x context mask cmask s v Hs.
    apply masked_scores_entry in Hs. exact Hs.
Qed.

Lemma attention_scale_ignores_heads_witness :
  exists self,
    Attention_init 32 4 false 0.1 false ex_params = Ok self
    /\ scale self = Rpower (INR 32) (- 0.5)
    /\ scale self <> Rpower (INR 32 / INR 4) (- 0.5).
Proof.
  eexists. split; [reflexivity|].
  destruct (attention_scale_ignores_heads 32 4 false 0.1 false ex_params _ eq_refl)
    as (H1 & H2 & _).
  - lia.
  - split; assumption.
Defined.

(** *** C9 *)

(** C9. [mult] has no effect on [FeedForward]: the module built with any two
    values of [mult] is the same, so is the function it computes, and the
    hidden layer is 4 * dim wide. *)
Theorem feedforward_mult_unused
    rng dropout3 gelu (dim m1 m2 : nat) (dropout : R) (p : FeedForwardParams)
    (x : tensor3) (g : rng) :
  FeedForward dim m1 dropout p = FeedForward dim m2 dropout p
  /\ FeedForward_forward rng dropout3 gelu (FeedForward dim m1 dropout p) x g
     = FeedForward_forward rng dropout3 gelu (FeedForward dim m2 dropout p) x g
  /\ hidden_width (FeedForward dim m1 dropout p) = Some (dim * 4)%nat
  /\ hidden_width (FeedForward dim m2 dropout p) = Some (dim * 4)%nat.
Proof. repeat split. Qed.

End AttnProofs.

(** ** Further properties of the attention and feed-forward layers *)

Module AttnExtra.
Import Attn AttnProofs.
Local Open Scope R_scope.

(** *** The context mask of a self-attention *)

(** X11. Without a context the key mask is the query mask: a
    [context_mask] passed to a self-attention next to [mask] is never read,
    and the scores and the whole forward pass are the same with any
    [context_mask] as with none. *)
Theorem self_attention_ignores_context_mask
    rng dropout4 (self : Attention) (x : tensor3) (m : mask2)
    (cmask : option mask2) (g : rng) :
  masked_scores self x None (Some m) cmask = masked_scores self x None (Some m) None
  /\ forward_full rng dropout4 self x None (Some m) cmask g
     = forward_full rng dropout4 self x None (Some m) None g.
Proof.
  assert (H : masked_scores self x None (Some m) cmask
              = masked_scores self x None (Some m) None) by reflexivity.
  split; [exact H|]. unfold forward_full. rewrite H. reflexivity.
Qed.

(** *** Causal and non-causal scores *)

Ltac destruct_binds :=
  repeat match goal with
         | |- context [rbind ?m _] =>
             destruct m as [? | ?]; cbn [rbind]; try reflexivity
         end.

Lemma masked_scores_causal_flag sa h sc q kv dp out x context mask cmask :
  masked_scores (mkAttention true sa h sc q kv dp out) x context mask cmask
  = match masked_scores (mkAttention false sa h sc q kv dp out) x context mask cmask with
    | Ok (d, v) => Ok (causal_fill d, v)
    | Raise e => Raise e
    end.
Proof.
  unfold masked_scores, mbind, result_bind.
  cbn [causal heads scale to_q to_kv]. destruct_binds.
Qed.

(** X12. A causal [Attention] computes the scores of the non-causal module
    with the same parameters and then overwrites the future positions:
    wherever j - i <= len_j - len_i (j <= i in a self-attention) the score
    is the non-causal one, elsewhere it is [MASK_VAL]. *)
Theorem causal_scores_are_filled_noncausal_scores
    dim heads dp sa (p : AttentionParams) self_c self_n x context mask cmask s v :
  Attention_init dim heads true dp sa p = Ok self_c ->
  Attention_init dim heads false dp sa p = Ok self_n ->
  masked_scores self_c x context mask cmask = Ok (s, v) ->
  exists d,
    masked_scores self_n x context mask cmask = Ok (d, v)
    /\ I4 s = I4 d /\ J4 s = J4 d
    /\ forall b h i j,
         at4 s b h i j
         = if (Z.of_nat (J4 d) - Z.of_nat (I4 d) + 1 <=? Z.of_nat j - Z.of_nat i)%Z
           then MASK_VAL else at4 d b h i j.
Proof.
  unfold Attention_init. intros Hc Hn H.
  destruct (Nat.eqb dim 0); [discriminate|].
  injection Hc as <-. injection Hn as <-.
  rewrite masked_scores_causal_flag in H.
  destruct (masked_scores _ x context mask cmask) as [[d v'] | e]; [|discriminate].
  injection H as <- <-. exists d. repeat split.
Qed.

Lemma causal_scores_are_filled_noncausal_scores_witness :
  exists s v d,
    masked_scores (ex_attention true) ex_zero None None None = Ok (s, v)
    /\ masked_scores (ex_attention false) ex_zero None None None = Ok (d, v)
    /\ at4 s 0 0 1 0 = at4 d 0 0 1 0.
Proof.
  assert (H : exists s v, masked_scores (ex_attention true) ex_zero None None None
                          = Ok (s, v)) by (eexists _, _; reflexivity).
  destruct H as (s & v & H).
  destruct (causal_scores_are_filled_noncausal_scores 1 1 0.1 false ex_params
              (ex_attention true) (ex_attention false) ex_zero None None None
              s v eq_refl eq_refl H) as (d & Hd & HI & HJ & Hat).
  exists s, v, d. split; [|split].
  - exact H.
  - exact Hd.
  - rewrite Hat.
    assert (E : I4 d = 2%nat /\ J4 d = 2%nat).
    { rewrite <- HI, <- HJ. cbn in H. injection H as <- _. split; reflexivity. }
    destruct E as [-> ->]. reflexivity.
Defined.

(** *** Shapes and the head count *)

Lemma Linear_forward_ok l x :
  D3 x = in_features l ->
  exists y, Linear_forward l x = Ok y
            /\ B3 y = B3 x /\ N3 y = N3 x /\ D3 y = out_features l.
Proof.
  intros H. unfold Linear_forward. rewrite H, Nat.eqb_refl.
  eexists. split; [reflexivity|]. repeat split.
Qed.

Lemma Linear_forward_raises l x :
  D3 x <> in_features l -> Linear_forward l x = Raise RuntimeError.
Proof.
  intros H. unfold Linear_forward. apply Nat.eqb_neq in H. rewrite H. reflexivity.
Qed.

Lemma chunk2_even t d :
  D3 t = (d * 2)%nat -> d <> 0%nat ->
  exists k v, chunk2 t = Ok (k, v)
              /\ B3 k = B3 t /\ N3 k = N3 t /\ D3 k = d
              /\ B3 v = B3 t /\ N3 v = N3 t /\ D3 v = d.
Proof.
  intros H Hd. unfold chunk2. rewrite H.
  destruct (Nat.ltb_spec (d * 2) 2) as [Hlt | _]; [lia|].
  assert (Hc : Nat.div (d * 2 + 1) 2 = d).
  { symmetry. apply (Nat.div_unique (d * 2 + 1) 2 d 1); lia. }
  rewrite Hc. eexists _, _. split; [reflexivity|]. cbn. repeat split. lia.
Qed.

Lemma split_heads_ok h t :
  h <> 0%nat -> Nat.modulo (D3 t) h = 0%nat ->
  exists q, split_heads h t = Ok q
            /\ B4 q = B3 t /\ H4 q = h /\ I4 q = N3 t /\ J4 q = Nat.div (D3 t) h.
Proof.
  intros Hh Hm. unfold split_heads. rewrite Hm.
  destruct (Nat.eqb_spec h 0); [contradiction|]. cbn [negb Nat.eqb].
  eexists. split; [reflexivity|]. repeat split.
Qed.




Lemma bcast_same a : bcast a a = a.
Proof. unfold bcast. destruct (Nat.eqb a 1); reflexivity. Qed.

Lemma bcast_ok_same a : bcast_ok a a = true.
Proof. unfold bcast_ok. rewrite Nat.eqb_refl. reflexivity. Qed.

Lemma bcast_to_same a : bcast_to a a = true.
Proof. unfold bcast_to. rewrite Nat.eqb_refl. reflexivity. Qed.

Lemma einsum_qk_same q k :
  B4 q = B4 k -> H4 q = H4 k -> J4 q = J4 k ->
  exists d, einsum_qk q k = Ok d /\ shape4 d = (B4 q, H4 q, I4 q, I4 k).
Proof.
  intros HB HH HJ. unfold einsum_qk. rewrite <- HB, <- HH, <- HJ.
  rewrite !bcast_ok_same. cbn [andb]. eexists. split; [reflexivity|].
  unfold shape4. cbn [B4 H4 I4 J4]. rewrite !bcast_same. reflexivity.
Qed.

Lemma einsum_av_same a v :
  B4 a = B4 v -> H4 a = H4 v -> J4 a = I4 v ->
  exists o, einsum_av a v = Ok o /\ shape4 o = (B4 a, H4 a, I4 a, J4 v).
Proof.
  intros HB HH HJ. unfold einsum_av. rewrite <- HB, <- HH, <- HJ.
  rewrite !bcast_ok_same. cbn [andb]. eexists. split; [reflexivity|].
  unfold shape4. cbn [B4 H4 I4 J4]. rewrite !bcast_same. reflexivity.
Qed.

Lemma input_mask_self b n mask cmask :
  (forall m, mask = Some m -> MB m = b /\ MN m = n) ->
  exists im, input_mask_of b n n false mask cmask = Ok im
             /\ forall m4, im = Some m4 -> M4B m4 = b /\ M4I m4 = n /\ M4J m4 = n.
Proof.
  intros Hmask. unfold input_mask_of, k_mask_of. cbn [negb default_lazy].
  assert (Hq : MB (q_mask_of b n mask) = b /\ MN (q_mask_of b n mask) = n).
  { unfold q_mask_of. destruct mask as [m |]; cbn [default_lazy].
    - apply Hmask. reflexivity.
    - split; reflexivity. }
  destruct Hq as [Hq1 Hq2].
  destruct (exists_ mask || exists_ cmask).
  - rewrite bcast_ok_same. eexists. split; [reflexivity|].
    intros m4 E. injection E as <-. cbn [M4B M4I M4J].
    rewrite bcast_same. repeat split; assumption.
  - eexists. split; [reflexivity|]. intros m4 E. discriminate.
Qed.

Lemma masked_fill_not_ok dots m :
  M4B m = B4 dots -> M4I m = I4 dots -> M4J m = J4 dots ->
  exists d, masked_fill_not dots m = Ok d /\ shape4 d = shape4 dots.
Proof.
  intros H1 H2 H3. unfold masked_fill_not. rewrite H1, H2, H3.
  rewrite !bcast_to_same. cbn [andb].
  eexists. split; reflexivity.
Qed.

Lemma shape4_eq t b h i j :
  shape4 t = (b, h, i, j) -> B4 t = b /\ H4 t = h /\ I4 t = i /\ J4 t = j.
Proof. unfold shape4. intros H. injection H as -> -> -> ->. repeat split. Qed.

(** X9. Shape invariance of a self-attention.  For a module built by the
    constructor with a positive head count dividing [dim], an input of
    feature size [dim] and an optional mask of the input's (batch, sequence)
    shape, the forward pass returns; the output has the shape of the input
    and the attention matrix the shape (batch, heads, n, n). *)
Theorem self_attention_preserves_shape
    rng dropout4 dim nh c dp sa (p : AttentionParams) self x mask cmask g :
  (forall pr t g0, shape4 (fst (dropout4 pr t g0)) = shape4 t) ->
  Attention_init dim nh c dp sa p = Ok self ->
  D3 x = dim -> nh <> 0%nat -> Nat.modulo dim nh = 0%nat ->
  (forall m, mask = Some m -> MB m = B3 x /\ MN m = N3 x) ->
  exists out attn g',
    forward_full rng dropout4 self x None mask cmask g = Ok (out, attn, g')
    /\ shape3 out = shape3 x
    /\ shape4 attn = (B3 x, nh, N3 x, N3 x).
Proof.
  unfold Attention_init. intros Hdrop H Hx Hh Hm Hmask.
  destruct (Nat.eqb_spec dim 0) as [| Hd]; [discriminate|]. injection H as <-.
  unfold forward_full, masked_scores, mbind, result_bind.
  cbn [heads to_q to_kv to_out scale causal dropout default_some].
  destruct (Linear_forward_ok (mkLinear dim dim (Wq p) None) x Hx)
    as (q & -> & Hq1 & Hq2 & Hq3). cbn [rbind].
  destruct (Linear_forward_ok (mkLinear dim (dim * 2) (Wkv p) None) x Hx)
    as (kv & -> & Hkv1 & Hkv2 & Hkv3). cbn [rbind].
  destruct (chunk2_even kv dim Hkv3 Hd)
    as (k & v & -> & Hk1 & Hk2 & Hk3 & Hv1 & Hv2 & Hv3). cbn [rbind fst snd].
  cbn [out_features] in Hq3.
  destruct (split_heads_ok nh q Hh) as (q4 & -> & Q1 & Q2 & Q3 & Q4);
    [rewrite Hq3; exact Hm|]. cbn [rbind].
  destruct (split_heads_ok nh k Hh) as (k4 & -> & K1 & K2 & K3 & K4);
    [rewrite Hk3; exact Hm|]. cbn [rbind].
  destruct (split_heads_ok nh v Hh) as (v4 & -> & V1 & V2 & V3 & V4);
    [rewrite Hv3; exact Hm|]. cbn [rbind].
  assert (HK : I4 k4 = N3 x) by congruence.
  rewrite HK. cbn [exists_].
  destruct (input_mask_self (B3 x) (N3 x) mask cmask Hmask) as (im & -> & Him).
  cbn [rbind].
  destruct (einsum_qk_same q4 k4) as (d0 & -> & Hd0); [congruence | congruence | congruence|].
  cbn [rbind]. apply shape4_eq in Hd0. destruct Hd0 as (D1 & D2 & D3' & D4).
  assert (Hfill : exists d1,
             match im with
             | Some m => masked_fill_not (scale_by (Rpower (INR dim) (- 0.5)) d0) m
             | None => Ok (scale_by (Rpower (INR dim) (- 0.5)) d0)
             end = Ok d1
             /\ shape4 d1 = (B3 x, nh, N3 x, N3 x)).
  { assert (Hs : shape4 (scale_by (Rpower (INR dim) (- 0.5)) d0)
                 = (B3 x, nh, N3 x, N3 x)).
    { unfold shape4. cbn [scale_by B4 H4 I4 J4]. congruence. }
    destruct im as [m |].
    - destruct (Him m eq_refl) as (M1 & M2 & M3).
      apply shape4_eq in Hs. destruct Hs as (S1 & S2 & S3 & S4).
      destruct (masked_fill_not_ok (scale_by (Rpower (INR dim) (- 0.5)) d0) m)
        as (d1 & -> & Hd1); [congruence | congruence | congruence|].
      exists d1. split; [reflexivity|]. rewrite Hd1. unfold shape4. congruence.
    - eexists. split; [reflexivity | exact Hs]. }
  destruct Hfill as (d1 & -> & Hd1). cbn [rbind fst snd].
  set (s := if c then causal_fill d1 else d1).
  assert (Hs : shape4 (softmax s) = (B3 x, nh, N3 x, N3 x)).
  { unfold s. destruct c; exact Hd1. }
  pose proof (Hdrop dp (softmax s) g) as Hdr.
  destruct (dropout4 dp (softmax s) g) as [attn_ g0]. cbn [fst] in Hdr.
  rewrite Hs in Hdr. apply shape4_eq in Hdr. destruct Hdr as (A1 & A2 & A3 & A4).
  destruct (einsum_av_same attn_ v4) as (o & -> & Ho);
    [congruence | congruence | congruence|].
  cbn [rbind]. apply shape4_eq in Ho. destruct Ho as (O1 & O2 & O3 & O4).
  assert (HD : D3 (merge_heads o) = dim).
  { cbn [merge_heads D3]. rewrite O2, O4, A2, V4, Hv3.
    symmetry. apply Nat.Div0.div_exact. exact Hm. }
  destruct (Linear_forward_ok (mkLinear dim dim (Wout p) (Some (bout p)))
              (merge_heads o) HD) as (out & -> & L1 & L2 & L3).
  cbn [rbind]. exists out, (softmax s), g0. split; [reflexivity|]. split.
  - unfold shape3. rewrite L1, L2, L3. cbn [merge_heads B3 N3 out_features].
    congruence.
  - exact Hs.
Qed.

Lemma self_attention_preserves_shape_witness :
  exists out attn g',
    forward_full unit eval_dropout4 (ex_attention true) ex_zero None
      (Some ex_mask) None tt = Ok (out, attn, g')
    /\ shape3 out = (1, 2, 1)%nat /\ shape4 attn = (1, 1, 2, 2)%nat.
Proof.
  apply (self_attention_preserves_shape unit eval_dropout4 1 1 true 0.1 false
           ex_params (ex_attention true) ex_zero (Some ex_mask) None tt).
  - reflexivity.
  - reflexivity.
  - reflexivity.
  - discriminate.
  - reflexivity.
  - intros m E. injection E as <-. split; reflexivity.
Defined.

(** *** The feed-forward block in inference mode *)

Lemma sum_n_ext (n : nat) (f g : nat -> R) :
  (forall k, (k < n)%nat -> f k = g k) -> sum_n n f = sum_n n g.
Proof.
  induction n as [| n IH]; intros H; [reflexivity|].
  cbn [sum_n]. rewrite IH by (intros k Hk; apply H; lia).
  rewrite (H n) by lia. reflexivity.
Qed.

(** The function computed by the five layers of [self.net]. *)
Lemma FeedForward_forward_eval gelu dim mult dp (p : FeedForwardParams) x :
  FeedForward_forward unit eval_dropout3 gelu (FeedForward dim mult dp p) x tt
  = if Nat.eqb (D3 x) dim then
      Ok (T3 (B3 x) (N3 x) dim
            (fun b n o =>
               sum_n (dim * 4)
                 (fun k => gelu (sum_n dim (fun i => at3 x b n i * W1 p k i) + b1 p k)
                           * W2 p o k)
               + b2 p o), tt)
    else Raise RuntimeError.
Proof.
  unfold FeedForward_forward, FeedForward.
  cbn [Sequential_forward layer_forward].
  unfold Linear_forward.
  cbn [in_features out_features weight bias mbind result_bind rbind].
  destruct (Nat.eqb (D3 x) dim); [|reflexivity].
  unfold mbind, result_bind.
  cbn [rbind fst snd eval_dropout3 D3 B3 N3 at3].
  rewrite Nat.eqb_refl. reflexivity.
Qed.

(** X13. In inference mode the feed-forward block returns exactly when the
    feature size of the input is [dim], and then keeps the shape of the
    input; any other feature size raises the runtime's shape error. *)
Theorem feedforward_shape_or_error gelu dim mult dp (p : FeedForwardParams) x :
  match FeedForward_forward unit eval_dropout3 gelu (FeedForward dim mult dp p) x tt with
  | Ok (y, _) => D3 x = dim /\ shape3 y = shape3 x
  | Raise e => e = RuntimeError /\ D3 x <> dim
  end.
Proof.
  rewrite FeedForward_forward_eval.
  destruct (Nat.eqb_spec (D3 x) dim) as [E | E].
  - split; [exact E|]. unfold shape3. cbn [B3 N3 D3]. rewrite E. reflexivity.
  - split; [reflexivity | exact E].
Qed.

(** X14. The feed-forward block works position by position: the output at
    a position (b, n) is determined by the input at that position alone. *)
Theorem feedforward_is_positionwise
    gelu dim mult dp (p : FeedForwardParams) x x' y y' (b n : nat) :
  FeedForward_forward unit eval_dropout3 gelu (FeedForward dim mult dp p) x tt
  = Ok (y, tt) ->
  FeedForward_forward unit eval_dropout3 gelu (FeedForward dim mult dp p) x' tt
  = Ok (y', tt) ->
  (forall i, (i < dim)%nat -> at3 x b n i = at3 x' b n i) ->
  forall o, at3 y b n o = at3 y' b n o.
Proof.
  rewrite !FeedForward_forward_eval. intros H H' Hx o.
  destruct (Nat.eqb (D3 x) dim); [|discriminate].
  destruct (Nat.eqb (D3 x') dim); [|discriminate].
  injection H as <-. injection H' as <-. cbn [at3]. f_equal.
  apply sum_n_ext. intros k _. do 2 f_equal. f_equal.
  apply sum_n_ext. intros i Hi. rewrite (Hx i Hi). reflexivity.
Qed.

Lemma feedforward_is_positionwise_witness :
  exists y y',
    FeedForward_forward unit eval_dropout3 (fun r => r)
      (FeedForward 1 4 0 {| W1 := fun _ _ => 1; b1 := fun _ => 0;
                            W2 := fun _ _ => 1; b2 := fun _ => 0 |})
      (T3 1 2 1 (fun _ n _ => INR n)) tt = Ok (y, tt)
    /\ FeedForward_forward unit eval_dropout3 (fun r => r)
      (FeedForward 1 4 0 {| W1 := fun _ _ => 1; b1 := fun _ => 0;
                            W2 := fun _ _ => 1; b2 := fun _ => 0 |})
      (T3 1 2 1 (fun _ n _ => match n with O => 0 | S _ => 7 end)) tt = Ok (y', tt)
    /\ at3 y 0 0 0 = at3 y' 0 0 0.
Proof.
  eexists _, _.
  split; [rewrite FeedForward_forward_eval; cbn [D3 Nat.eqb]; reflexivity|].
  split; [rewrite FeedForward_forward_eval; cbn [D3 Nat.eqb]; reflexivity|].
  eapply (feedforward_is_positionwise (fun r => r) 1 4 0
            {| W1 := fun _ _ => 1; b1 := fun _ => 0;
               W2 := fun _ _ => 1; b2 := fun _ => 0 |}
            (T3 1 2 1 (fun _ n _ => INR n))
            (T3 1 2 1 (fun _ n _ => match n with O => 0 | S _ => 7 end))
            _ _ 0%nat 0%nat);
    [rewrite FeedForward_forward_eval; cbn [D3 Nat.eqb]; reflexivity
    |rewrite FeedForward_forward_eval; cbn [D3 Nat.eqb]; reflexivity |].
  intros i Hi. reflexivity.
Defined.

End AttnExtra.

(** ** Proofs: construction and forward passes of the models *)

Module NetProofs.
Import Net.

Lemma M_bind_Ok {A B} (m : M A) (k : A -> M B) (s : nat) (r : B * nat) :
  mbind k m s = Ok r -> exists a s1, m s = Ok (a, s1) /\ k a s1 = Ok r.
Proof.
  unfold mbind, M_bind. destruct (m s) as [[a s1] | e]; [eauto | discriminate].
Qed.

Lemma lift_Ok {A} (r : result A) (s : nat) (a : A) (s' : nat) :
  lift r s = Ok (a, s') -> r = Ok a /\ s' = s.
Proof.
  unfold lift. destruct r as [a0 | e]; [|discriminate].
  intros H. injection H as -> ->. split; reflexivity.
Qed.

Lemma M_bind_ok_eq {A B} (m : M A) (k : A -> M B) s a s1 :
  m s = Ok (a, s1) -> mbind k m s = k a s1.
Proof. unfold mbind, M_bind. intros ->. reflexivity. Qed.

Lemma M_bind_raise_eq {A B} (m : M A) (k : A -> M B) s e :
  m s = Raise e -> mbind k m s = Raise e.
Proof. unfold mbind, M_bind. intros ->. reflexivity. Qed.

Ltac ok_step tac := erewrite M_bind_ok_eq by tac; cbv beta.

(** *** [nn.Dropout] *)

Lemma nn_Dropout_ok p s : (0 <= p <= 1)%R -> nn_Dropout p s = Ok (Dropout p, s).
Proof.
  intros H. unfold nn_Dropout.
  destruct (Rlt_dec p 0); [lra|]. destruct (Rlt_dec 1 p); [lra|]. reflexivity.
Qed.

Lemma nn_Dropout_raises p s :
  (p < 0 \/ 1 < p)%R -> nn_Dropout p s = Raise ValueError.
Proof.
  intros H. unfold nn_Dropout.
  destruct (Rlt_dec p 0); [reflexivity|].
  destruct (Rlt_dec 1 p); [reflexivity | lra].
Qed.

Lemma dropout_range p : (0 <= p <= 1)%R \/ (p < 0 \/ 1 < p)%R.
Proof.
  destruct (Rlt_dec p 0); [right; left; assumption|].
  destruct (Rlt_dec 1 p); [right; right; assumption | left; lra].
Qed.

(** The embedding object built for the 'absolute' scheme. *)
Lemma TransformerEmbedding_init_absolute emb_sz dim max_seq_len dropout s :
  (0 <= dropout <= 1)%R ->
  TransformerEmbedding_init emb_sz dim max_seq_len dropout "absolute" s
  = Ok (VObj "TransformerEmbedding"
          (<["dropout" := VModule (Dropout dropout)]>
             (<["pos_enc" := VModule (AbsolutePositionalEmbedding
                                        (Embedding max_seq_len dim
                                           (S s, [max_seq_len; dim])))]>
                (<["emb" := VModule (Embedding emb_sz dim (s, [emb_sz; dim]))]> ∅))),
        S (S s)).
Proof.
  intros H. unfold TransformerEmbedding_init.
  ok_step ltac:(reflexivity). ok_step ltac:(reflexivity).
  ok_step ltac:(reflexivity).
  ok_step ltac:(apply nn_Dropout_ok; exact H).
  reflexivity.
Qed.

Lemma TransformerEmbedding_init_bad_dropout emb_sz dim max_seq_len dropout s :
  (dropout < 0 \/ 1 < dropout)%R ->
  TransformerEmbedding_init emb_sz dim max_seq_len dropout "absolute" s
  = Raise ValueError.
Proof.
  intros H. unfold TransformerEmbedding_init.
  ok_step ltac:(reflexivity). ok_step ltac:(reflexivity).
  ok_step ltac:(reflexivity).
  apply M_bind_raise_eq. apply nn_Dropout_raises. exact H.
Qed.

Lemma TransformerEmbedding_init_absolute_inv emb_sz dim max_seq_len dropout s r :
  TransformerEmbedding_init emb_sz dim max_seq_len dropout "absolute" s = Ok r ->
  (0 <= dropout <= 1)%R
  /\ r = (VObj "TransformerEmbedding"
            (<["dropout" := VModule (Dropout dropout)]>
               (<["pos_enc" := VModule (AbsolutePositionalEmbedding
                                          (Embedding max_seq_len dim
                                             (S s, [max_seq_len; dim])))]>
                  (<["emb" := VModule (Embedding emb_sz dim (s, [emb_sz; dim]))]>
                     ∅))),
          S (S s)).
Proof.
  intros H. destruct (dropout_range dropout) as [Hv | Hb].
  - rewrite (TransformerEmbedding_init_absolute _ _ _ _ _ Hv) in H.
    injection H as <-. split; [exact Hv | reflexivity].
  - rewrite (TransformerEmbedding_init_bad_dropout _ _ _ _ _ Hb) in H.
    discriminate H.
Qed.

(** *** C8 *)

(** C8. Constructing a [TransformerEmbedding] with [pos_enc = 'axial'] raises
    [NotImplementedError], whatever the other arguments. *)
Theorem axial_raises_at_construction
    (emb_sz dim max_seq_len : nat) (dropout : R) (s : nat) :
  TransformerEmbedding_init emb_sz dim max_seq_len dropout "axial" s
  = Raise NotImplementedError.
Proof. reflexivity. Qed.

(** *** The forward pass of the embedding *)

Lemma AbsolutePositionalEmbedding_forward_arange emb n :
  call (AbsolutePositionalEmbedding emb) (arange n) no_extras = Raise IndexError.
Proof. reflexivity. Qed.

Lemma in_vocab_forallb num data :
  in_vocab num data ->
  forallb (fun v => (0 <=? v)%Z && (v <? Z.of_nat num)%Z) data = true.
Proof.
  intros H. apply forallb_forall. intros v Hv.
  unfold in_vocab in H. rewrite List.Forall_forall in H. specialize (H v Hv).
  apply andb_true_intro. split; [apply Z.leb_le | apply Z.ltb_lt]; lia.
Qed.

(** [TransformerEmbedding.forward] passes the one-dimensional
    [torch.arange(n)] to the positional embedding, which reads [x.shape[1]]. *)
Lemma TransformerEmbedding_forward_raises cls attrs num dim w pemb b n data :
  attrs !! "emb" = Some (VModule (Embedding num dim w)) ->
  attrs !! "pos_enc" = Some (VModule (AbsolutePositionalEmbedding pemb)) ->
  in_vocab num data ->
  TransformerEmbedding_forward (VObj cls attrs) (LongT [b; n] data)
  = Raise IndexError.
Proof.
  intros Hemb Hpos Hdata. unfold TransformerEmbedding_forward.
  cbn [tshape getattr]. rewrite Hemb. cbn [mbind result_bind rbind].
  cbn [call is_empty no_extras pos kw Embedding_forward].
  rewrite (in_vocab_forallb _ _ Hdata). rewrite Hpos.
  cbn [mbind result_bind rbind].
  rewrite AbsolutePositionalEmbedding_forward_arange. reflexivity.
Qed.

(** No input gets through: whatever the token embedding returns, the
    positional embedding raises. *)
Lemma TransformerEmbedding_forward_never_returns cls attrs num dim w pemb x :
  attrs !! "emb" = Some (VModule (Embedding num dim w)) ->
  attrs !! "pos_enc" = Some (VModule (AbsolutePositionalEmbedding pemb)) ->
  exists e, TransformerEmbedding_forward (VObj cls attrs) x = Raise e.
Proof.
  intros Hemb Hpos. unfold TransformerEmbedding_forward.
  destruct (tshape x) as [| a [| n [| c l]]]; try (eexists; reflexivity).
  cbn [getattr]. rewrite Hemb. cbn [mbind result_bind rbind].
  cbn [call is_empty no_extras pos kw].
  destruct (Embedding_forward num dim x) as [y | e];
    cbn [rbind]; [|eexists; reflexivity].
  rewrite Hpos. cbn [mbind result_bind rbind].
  rewrite AbsolutePositionalEmbedding_forward_arange. eexists. reflexivity.
Qed.

(** *** C10 *)

Lemma TransformerEmbedding_init_fixed emb_sz dim max_seq_len dropout s :
  TransformerEmbedding_init emb_sz dim max_seq_len dropout "fixed" s
  = Raise AttributeError.
Proof. reflexivity. Qed.

(** With any other scheme name no branch assigns [pos_enc], and [_init]
    fails when it reads it (unless [nn.Dropout] has refused its argument
    before). *)
Lemma TransformerEmbedding_init_other emb_sz dim max_seq_len dropout pos_enc s :
  pos_enc <> "absolute" ->
  exists e, TransformerEmbedding_init emb_sz dim max_seq_len dropout pos_enc s
            = Raise e.
Proof.
  intros Hne. unfold TransformerEmbedding_init.
  destruct (String.eqb_spec pos_enc "absolute") as [-> | _]; [contradiction|].
  destruct (String.eqb_spec pos_enc "fixed") as [-> | _].
  { exists AttributeError. reflexivity. }
  destruct (String.eqb_spec pos_enc "axial") as [-> | _].
  { exists NotImplementedError. reflexivity. }
  ok_step ltac:(reflexivity). ok_step ltac:(reflexivity).
  ok_step ltac:(reflexivity).
  destruct (dropout_range dropout) as [Hv | Hb].
  - ok_step ltac:(apply nn_Dropout_ok; exact Hv).
    exists AttributeError. reflexivity.
  - exists ValueError. apply M_bind_raise_eq. apply nn_Dropout_raises. exact Hb.
Qed.

(** C10: the code does not do what the claim says.  Constructing a
    [TransformerEmbedding] with [pos_enc = 'fixed'] raises [AttributeError],
    at the lookup of [self.FixedPositionalEmbedding], and the constructor
    returns for the scheme 'absolute' only (with a dropout in [0, 1]): so
    far the claim.  But the module returned for 'absolute' is not usable:
    its forward pass returns for no input, and raises [IndexError] on every
    batch of ids of its vocabulary, because it passes the one-dimensional
    [torch.arange(n)] to the positional embedding, which reads
    [x.shape[1]]. *)
Theorem fixed_raises_absolute_unusable
    (emb_sz dim max_seq_len : nat) (dropout : R) (s : nat) :
  TransformerEmbedding_init emb_sz dim max_seq_len dropout "fixed" s
  = Raise AttributeError
  /\ (forall pos_enc : string,
        (exists r, TransformerEmbedding_init emb_sz dim max_seq_len dropout pos_enc s
                   = Ok r)
        <-> pos_enc = "absolute" /\ (0 <= dropout <= 1)%R)
  /\ (forall self s',
        TransformerEmbedding_init emb_sz dim max_seq_len dropout "absolute" s
        = Ok (self, s') ->
        (forall x, exists e, TransformerEmbedding_forward self x = Raise e)
        /\ (forall b n data,
              in_vocab emb_sz data ->
              TransformerEmbedding_forward self (LongT [b; n] data)
              = Raise IndexError)).
Proof.
  split; [reflexivity|]. split.
  - intros pos_enc. split.
    + intros [r Hr].
      destruct (String.eqb_spec pos_enc "absolute") as [-> | Hne].
      * split; [reflexivity|].
        apply TransformerEmbedding_init_absolute_inv in Hr. apply Hr.
      * destruct (TransformerEmbedding_init_other emb_sz dim max_seq_len dropout
                    pos_enc s Hne) as [e He].
        rewrite He in Hr. discriminate.
    + intros [-> Hv]. eexists. apply TransformerEmbedding_init_absolute. exact Hv.
  - intros self s' H.
    apply TransformerEmbedding_init_absolute_inv in H. destruct H as [_ H].
    injection H as -> _.
    split.
    + intros x. eapply TransformerEmbedding_forward_never_returns.
      * rewrite !lookup_insert_ne by done. apply lookup_insert_eq.
      * rewrite lookup_insert_ne by done. apply lookup_insert_eq.
    + intros b n data Hdata. eapply TransformerEmbedding_forward_raises.
      * rewrite !lookup_insert_ne by done. apply lookup_insert_eq.
      * rewrite lookup_insert_ne by done. apply lookup_insert_eq.
      * exact Hdata.
Qed.

Lemma fixed_raises_absolute_unusable_witness :
  exists self s',
    TransformerEmbedding_init 260 32 512 0 "absolute" 0 = Ok (self, s')
    /\ TransformerEmbedding_forward self (LongT [1; 5] [3; 4; 5; 6; 7]%Z)
       = Raise IndexError.
Proof.
  assert (H : exists self s',
             TransformerEmbedding_init 260 32 512 0 "absolute" 0 = Ok (self, s'))
    by (eexists _, _; apply TransformerEmbedding_init_absolute; lra).
  destruct H as (self & s' & H). exists self, s'. split; [exact H|].
  apply (proj2 (proj2 (proj2 (fixed_raises_absolute_unusable 260 32 512 0 0))
                  self s' H)).
  repeat constructor; lia.
Defined.

(** *** Inversion of the constructors *)

Ltac step H :=
  let E := fresh "E" in
  apply M_bind_Ok in H; destruct H as (? & ? & E & H).

Ltac lifted E :=
  apply lift_Ok in E; destruct E as [E ->].

(** A [self.name = v] statement. *)
Ltac set_step H :=
  let E := fresh "E" in
  apply M_bind_Ok in H; destruct H as (? & ? & E & H);
  apply lift_Ok in E; destruct E as [E ->];
  cbn [setattr] in E; injection E as <-.

(** An attribute read. *)
Ltac get_step H :=
  let E := fresh "E" in
  apply M_bind_Ok in H; destruct H as (? & ? & E & H);
  apply lift_Ok in E; destruct E as [E ->];
  cbn [getattr module_getattr] in E;
  repeat (rewrite lookup_insert_ne in E by done);
  try rewrite lookup_insert_eq in E;
  try rewrite lookup_empty in E;
  cbn beta iota in E;
  try discriminate E;
  try (injection E as <-).

(** The embedding object of a constructor, from its successful return. *)
Ltac emb_step H :=
  let E := fresh "E" in
  apply M_bind_Ok in H; destruct H as (? & ? & E & H);
  apply TransformerEmbedding_init_absolute_inv in E;
  destruct E as [_ E]; injection E as -> ->.

Lemma nn_Linear_bias i o s :
  nn_Linear i o true s = Ok (Linear i o (s, [o; i]) (Some (S s, [o])), S (S s)).
Proof. reflexivity. Qed.

Lemma TransformerLM_init_emb vocab dim depth heads causal msl tie ad fd ed s self s' :
  TransformerLM_init vocab dim depth heads causal msl tie ad fd ed s = Ok (self, s') ->
  exists attrs,
    self = VObj "TransformerLM" attrs
    /\ attrs !! "emb"
       = Some (VObj "TransformerEmbedding"
          (<["dropout" := VModule (Dropout ed)]>
             (<["pos_enc" := VModule (AbsolutePositionalEmbedding
                                        (Embedding msl dim (S s, [msl; dim])))]>
                (<["emb" := VModule (Embedding vocab dim (s, [vocab; dim]))]> ∅)))).
Proof.
  unfold TransformerLM_init. intros H.
  set_step H.
  emb_step H.
  set_step H.
  step H.
  set_step H.
  step H. rewrite nn_Linear_bias in E0. injection E0 as <- <-.
  set_step H.
  destruct tie.
  - get_step H. get_step H. get_step H. get_step H.
    step H. lifted E0. cbn [set_weight] in E0. injection E0 as <-.
    lifted H. cbn [setattr] in H. injection H as <-.
    eexists. split; [reflexivity|].
    rewrite !lookup_insert_ne by done. apply lookup_insert_eq.
  - injection H as <- _.
    eexists. split; [reflexivity|].
    rewrite !lookup_insert_ne by done. apply lookup_insert_eq.
Qed.

(** The forward pass of a constructed [TransformerLM] raises in its
    embedding, for every configuration and every batch of in-range ids. *)
Lemma TransformerLM_forward_raises
    vocab dim depth heads causal msl tie ad fd ed s self s' b n data mask :
  TransformerLM_init vocab dim depth heads causal msl tie ad fd ed s = Ok (self, s') ->
  in_vocab vocab data ->
  TransformerLM_forward self (LongT [b; n] data) mask = Raise IndexError.
Proof.
  intros H Hdata.
  destruct (TransformerLM_init_emb _ _ _ _ _ _ _ _ _ _ _ _ _ H) as (attrs & -> & Hemb).
  unfold TransformerLM_forward. cbn [getattr]. rewrite Hemb.
  cbn [mbind result_bind rbind call_v]. cbn [String.eqb Ascii.eqb Bool.eqb is_empty no_extras pos kw andb].
  erewrite TransformerEmbedding_forward_raises; [reflexivity | | | exact Hdata].
  - rewrite !lookup_insert_ne by done. apply lookup_insert_eq.
  - rewrite lookup_insert_ne by done. apply lookup_insert_eq.
Qed.

(** *** Constructors that return *)

Lemma Attention_init_ok dim h c d sa s :
  dim <> 0%nat -> (0 <= d <= 1)%R ->
  exists m s1, Attention_init dim h c d sa s = Ok (m, s1).
Proof.
  intros Hd Hv. unfold Attention_init.
  destruct (Nat.eqb_spec dim 0); [contradiction|].
  ok_step ltac:(reflexivity). ok_step ltac:(reflexivity).
  ok_step ltac:(apply nn_Dropout_ok; exact Hv).
  eexists _, _. reflexivity.
Qed.

Lemma FeedForward_init_ok dim mult d s :
  (0 <= d <= 1)%R -> exists m s1, FeedForward_init dim mult d s = Ok (m, s1).
Proof.
  intros Hv. unfold FeedForward_init.
  ok_step ltac:(reflexivity).
  ok_step ltac:(apply nn_Dropout_ok; exact Hv).
  ok_step ltac:(reflexivity).
  ok_step ltac:(apply nn_Dropout_ok; exact Hv).
  eexists _, _. reflexivity.
Qed.

Ltac ok_attention Hd Hv :=
  match goal with
  | |- context [mbind _ (Attention_init ?a ?b ?c ?d ?e) ?st] =>
      let m := fresh "a" in
      let s := fresh "s" in
      let E := fresh "E" in
      destruct (Attention_init_ok a b c d e st Hd Hv) as (m & s & E);
      ok_step ltac:(exact E)
  end.

Ltac ok_feedforward Hv :=
  match goal with
  | |- context [mbind _ (FeedForward_init ?a ?b ?c) ?st] =>
      let m := fresh "f" in
      let s := fresh "s" in
      let E := fresh "E" in
      destruct (FeedForward_init_ok a b c st Hv) as (m & s & E);
      ok_step ltac:(exact E)
  end.

Lemma TransformerEncoderBlock_init_ok dim heads c ad fd s :
  dim <> 0%nat -> (0 <= ad <= 1)%R -> (0 <= fd <= 1)%R ->
  exists m s1, TransformerEncoderBlock_init dim heads c ad fd s = Ok (m, s1).
Proof.
  intros Hd Ha Hf. unfold TransformerEncoderBlock_init.
  ok_attention Hd Ha. ok_step ltac:(reflexivity). ok_step ltac:(reflexivity).
  ok_feedforward Hf. eexists _, _. reflexivity.
Qed.

Lemma TransformerDecoderBlock_init_ok dim heads ad fd s :
  dim <> 0%nat -> (0 <= ad <= 1)%R -> (0 <= fd <= 1)%R ->
  exists m s1, TransformerDecoderBlock_init dim heads ad fd s = Ok (m, s1).
Proof.
  intros Hd Ha Hf. unfold TransformerDecoderBlock_init.
  ok_attention Hd Ha. ok_step ltac:(reflexivity). ok_step ltac:(reflexivity).
  ok_attention Hd Ha. ok_step ltac:(reflexivity). ok_step ltac:(reflexivity).
  ok_feedforward Hf. eexists _, _. reflexivity.
Qed.

Lemma repeatM_ok (mk : M module) :
  (forall s, exists m s1, mk s = Ok (m, s1)) ->
  forall depth s, exists ls s1, repeatM depth mk s = Ok (ls, s1).
Proof.
  intros Hmk. induction depth as [| d IH]; intros s.
  - eexists _, _. reflexivity.
  - destruct (Hmk s) as (m & s1 & E). destruct (IH s1) as (ls & s2 & E2).
    cbn [repeatM]. ok_step ltac:(exact E). ok_step ltac:(exact E2).
    eexists _, _. reflexivity.
Qed.

Lemma TransformerEncoder_init_ok dim depth heads c ad fd s :
  depth = 0%nat \/ (dim <> 0%nat /\ (0 <= ad <= 1)%R /\ (0 <= fd <= 1)%R) ->
  exists m s1, TransformerEncoder_init dim depth heads c ad fd s = Ok (m, s1).
Proof.
  intros [-> | (Hd & Ha & Hf)]; unfold TransformerEncoder_init.
  - eexists _, _. reflexivity.
  - destruct (repeatM_ok (TransformerEncoderBlock_init dim heads c ad fd)
                (fun s => TransformerEncoderBlock_init_ok dim heads c ad fd s Hd Ha Hf)
                depth s) as (ls & s1 & E).
    ok_step ltac:(exact E). eexists _, _. reflexivity.
Qed.

Lemma TransformerDecoder_init_ok dim depth heads ad fd s :
  depth = 0%nat \/ (dim <> 0%nat /\ (0 <= ad <= 1)%R /\ (0 <= fd <= 1)%R) ->
  exists m s1, TransformerDecoder_init dim depth heads ad fd s = Ok (m, s1).
Proof.
  intros [-> | (Hd & Ha & Hf)]; unfold TransformerDecoder_init.
  - eexists _, _. reflexivity.
  - destruct (repeatM_ok (TransformerDecoderBlock_init dim heads ad fd)
                (fun s => TransformerDecoderBlock_init_ok dim heads ad fd s Hd Ha Hf)
                depth s) as (ls & s1 & E).
    ok_step ltac:(exact E). eexists _, _. reflexivity.
Qed.

Ltac ok_encoder Hok :=
  match goal with
  | |- context [mbind _ (TransformerEncoder_init ?a ?b ?c ?d ?e ?f) ?st] =>
      let m := fresh "enc" in
      let s := fresh "s" in
      let E := fresh "E" in
      destruct (TransformerEncoder_init_ok a b c d e f st Hok) as (m & s & E);
      ok_step ltac:(exact E)
  end.

Ltac ok_decoder Hok :=
  match goal with
  | |- context [mbind _ (TransformerDecoder_init ?a ?b ?c ?d ?e) ?st] =>
      let m := fresh "dec" in
      let s := fresh "s" in
      let E := fresh "E" in
      destruct (TransformerDecoder_init_ok a b c d e st Hok) as (m & s & E);
      ok_step ltac:(exact E)
  end.

Ltac ok_get :=
  erewrite M_bind_ok_eq
    by (cbn [lift getattr module_getattr];
        repeat (rewrite lookup_insert_ne by done);
        rewrite ?lookup_insert_eq; reflexivity);
  cbv beta.

Lemma TransformerLM_init_returns vocab dim depth heads causal msl tie ad fd ed s :
  (0 <= ed <= 1)%R ->
  depth = 0%nat \/ (dim <> 0%nat /\ (0 <= ad <= 1)%R /\ (0 <= fd <= 1)%R) ->
  exists self s',
    TransformerLM_init vocab dim depth heads causal msl tie ad fd ed s = Ok (self, s').
Proof.
  intros He Hok. unfold TransformerLM_init.
  ok_step ltac:(reflexivity).
  ok_step ltac:(apply TransformerEmbedding_init_absolute; exact He).
  ok_step ltac:(reflexivity).
  ok_encoder Hok. ok_step ltac:(reflexivity).
  ok_step ltac:(apply nn_Linear_bias). ok_step ltac:(reflexivity).
  destruct tie; [|eexists _, _; reflexivity].
  ok_get. ok_get. ok_get. ok_get.
  ok_step ltac:(reflexivity). eexists _, _. reflexivity.
Qed.

Lemma default_rates : (0 <= 0 <= 1)%R /\ (0 <= 0.1 <= 1)%R.
Proof. split; lra. Qed.

Lemma stack_ok (dim depth : nat) :
  dim <> 0%nat \/ depth = 0%nat ->
  depth = 0%nat \/ (dim <> 0%nat /\ (0 <= 0.1 <= 1)%R /\ (0 <= 0.1 <= 1)%R).
Proof.
  intros [Hd | ->]; [right | left; reflexivity].
  split; [exact Hd|]. split; lra.
Qed.

Lemma TransformerEncDec_init_returns
    enc_vocab dec_vocab dim depth heads msl pad_idx s :
  dim <> 0%nat \/ depth = 0%nat ->
  exists self s',
    TransformerEncDec_init enc_vocab dec_vocab dim depth heads msl pad_idx false s
    = Ok (self, s').
Proof.
  intros Hok. apply stack_ok in Hok. unfold TransformerEncDec_init.
  ok_step ltac:(reflexivity). ok_step ltac:(reflexivity).
  ok_step ltac:(apply TransformerEmbedding_init_absolute; lra).
  ok_step ltac:(reflexivity).
  ok_step ltac:(apply TransformerEmbedding_init_absolute; lra).
  ok_step ltac:(reflexivity).
  ok_encoder Hok. ok_step ltac:(reflexivity).
  ok_decoder Hok. ok_step ltac:(reflexivity).
  ok_step ltac:(apply nn_Linear_bias). ok_step ltac:(reflexivity).
  eexists _, _. reflexivity.
Qed.

(** *** C2 *)

(** C2: the code does not do what the claim says.  For the model built
    with vocab_sz=260, dim=32, depth=2, heads=4 and every id tensor of shape
    (1,5) with values in [0, 260), the forward pass does not return logits:
    it raises IndexError, in [AbsolutePositionalEmbedding.forward], which
    reads [x.shape[1]] of the one-dimensional [torch.arange(n)] it is given. *)
Theorem lm_forward_raises_IndexError
    (s : nat) (self : value) (s' : nat) (data : list Z) (mask : option tensor) :
  TransformerLM_init 260 32 2 4 true 512 false 0.1 0.1 0.1 s = Ok (self, s') ->
  length data = 5%nat ->
  in_vocab 260 data ->
  TransformerLM_forward self (LongT [1; 5] data) mask = Raise IndexError.
Proof.
  intros H _ Hdata. exact (TransformerLM_forward_raises _ _ _ _ _ _ _ _ _ _ _ _ _ _ _ _ _ H Hdata).
Qed.

Lemma lm_forward_raises_IndexError_witness :
  exists self s',
    TransformerLM_init 260 32 2 4 true 512 false 0.1 0.1 0.1 0 = Ok (self, s')
    /\ TransformerLM_forward self (LongT [1; 5] [3; 4; 5; 6; 7]%Z) None
       = Raise IndexError.
Proof.
  assert (H : exists self s',
             TransformerLM_init 260 32 2 4 true 512 false 0.1 0.1 0.1 0
             = Ok (self, s')).
  { apply TransformerLM_init_returns; [lra|]. right.
    split; [discriminate|]. split; lra. }
  destruct H as (self & s' & H). exists self, s'. split; [exact H|].
  apply (lm_forward_raises_IndexError 0 self s' [3; 4; 5; 6; 7]%Z None H).
  - reflexivity.
  - repeat constructor; lia.
Defined.

(** *** The encoder-decoder model *)

Lemma TransformerEncDec_init_inv
    enc_vocab dec_vocab dim depth heads msl pad_idx tie s self s' :
  TransformerEncDec_init enc_vocab dec_vocab dim depth heads msl pad_idx tie s
  = Ok (self, s') ->
  tie = false
  /\ exists attrs,
       self = VObj "TransformerEncDec" attrs
       /\ attrs !! "pad_idx" = Some (VOptInt pad_idx).
Proof.
  unfold TransformerEncDec_init. intros H.
  set_step H. set_step H.
  emb_step H.
  set_step H.
  emb_step H.
  set_step H.
  step H. set_step H.
  step H. set_step H.
  step H. rewrite nn_Linear_bias in E1. injection E1 as <- <-.
  set_step H.
  destruct tie.
  - get_step H.
  - split; [reflexivity|]. injection H as <- _.
    eexists. split; [reflexivity|].
    rewrite !lookup_insert_ne by done. apply lookup_insert_eq.
Qed.

(** *** C5 *)

(** C5: the code does not do what the claim says.  With [tie_weights=True]
    the constructor of [TransformerEncDec] never returns: it reads
    [self.emb], an attribute this class does not have, and raises
    [AttributeError] (or, for dim = 0 with a positive depth, it has already
    raised [ZeroDivisionError] while building the encoder). *)
Theorem encdec_tie_weights_raises
    (enc_vocab dec_vocab dim depth heads msl : nat) (pad_idx : option Z) (s : nat) :
  TransformerEncDec_init enc_vocab dec_vocab dim depth heads msl pad_idx true s
  = Raise (if Nat.eqb dim 0 && negb (Nat.eqb depth 0)
           then ZeroDivisionError else AttributeError).
Proof.
  assert (Hcases : (dim = 0%nat /\ exists d, depth = S d)
                   \/ (dim <> 0%nat \/ depth = 0%nat)).
  { destruct dim; [|right; left; lia].
    destruct depth; [right; right; reflexivity | left; eauto]. }
  destruct Hcases as [[-> [d ->]] | Hok].
  - unfold TransformerEncDec_init.
    ok_step ltac:(reflexivity). ok_step ltac:(reflexivity).
    ok_step ltac:(apply TransformerEmbedding_init_absolute; lra).
    ok_step ltac:(reflexivity).
    ok_step ltac:(apply TransformerEmbedding_init_absolute; lra).
    ok_step ltac:(reflexivity).
    reflexivity.
  - replace (Nat.eqb dim 0 && negb (Nat.eqb depth 0)) with false.
    2:{ symmetry. destruct Hok as [Hd | ->].
        - apply Nat.eqb_neq in Hd. rewrite Hd. reflexivity.
        - apply andb_false_r. }
    apply stack_ok in Hok.
    unfold TransformerEncDec_init.
    ok_step ltac:(reflexivity). ok_step ltac:(reflexivity).
    ok_step ltac:(apply TransformerEmbedding_init_absolute; lra).
    ok_step ltac:(reflexivity).
    ok_step ltac:(apply TransformerEmbedding_init_absolute; lra).
    ok_step ltac:(reflexivity).
    ok_encoder Hok. ok_step ltac:(reflexivity).
    ok_decoder Hok. ok_step ltac:(reflexivity).
    ok_step ltac:(apply nn_Linear_bias). ok_step ltac:(reflexivity).
    apply M_bind_raise_eq. cbn [lift getattr].
    rewrite !lookup_insert_ne by done. rewrite lookup_empty. reflexivity.
Qed.

(** The sibling constructor [TransformerLM] ties the weights: with
    [tie_weights=True] the output projection and the embedding table hold
    the same parameter. *)
Lemma TransformerLM_ties_weights :
  exists self s' p emb_attrs b,
    TransformerLM_init 260 32 0 4 true 512 true 0.1 0.1 0.1 0 = Ok (self, s')
    /\ getattr self "proj" = Ok (VModule (Linear 32 260 p b))
    /\ getattr self "emb" = Ok (VObj "TransformerEmbedding" emb_attrs)
    /\ emb_attrs !! "emb" = Some (VModule (Embedding 260 32 p)).
Proof.
  eexists _, _, _, _, _. split.
  { unfold TransformerLM_init.
    ok_step ltac:(reflexivity).
    ok_step ltac:(apply TransformerEmbedding_init_absolute; lra).
    ok_step ltac:(reflexivity). ok_step ltac:(reflexivity).
    ok_step ltac:(reflexivity).
    ok_step ltac:(apply nn_Linear_bias). ok_step ltac:(reflexivity).
    ok_get. ok_get. ok_get. ok_get.
    ok_step ltac:(reflexivity). reflexivity. }
  split; [cbn [getattr]; rewrite lookup_insert_eq; reflexivity|].
  split.
  { cbn [getattr]. rewrite !lookup_insert_ne by done.
    rewrite lookup_insert_eq. reflexivity. }
  rewrite !lookup_insert_ne by done. apply lookup_insert_eq.
Qed.

(** *** C7 *)

(** C7. For a [TransformerEncDec] and a forward call without explicit
    masks, the masks in use are [ids != pad_idx], elementwise, for the
    source and for the target when a pad index is configured, and [None]
    when it is not. *)
Theorem padding_masks_derived
    (enc_vocab dec_vocab dim depth heads msl : nat) (pad_idx : option Z)
    (tie : bool) (s : nat) (self : value) (s' : nat)
    (ss ts : list nat) (sd td : list Z) :
  TransformerEncDec_init enc_vocab dec_vocab dim depth heads msl pad_idx tie s
  = Ok (self, s') ->
  forward_masks self (LongT ss sd) (LongT ts td) None None
  = Ok (option_map (fun p => BoolT ss (List.map (fun v => negb (Z.eqb v p)) sd)) pad_idx,
        option_map (fun p => BoolT ts (List.map (fun v => negb (Z.eqb v p)) td)) pad_idx).
Proof.
  intros H.
  destruct (TransformerEncDec_init_inv _ _ _ _ _ _ _ _ _ _ _ H)
    as (_ & attrs & -> & Hpad).
  unfold forward_masks, get_padding_mask. cbn [getattr]. rewrite Hpad.
  destruct pad_idx as [p |]; reflexivity.
Qed.

Lemma padding_masks_derived_witness :
  exists self s',
    TransformerEncDec_init 10 12 8 1 2 16 (Some 0%Z) false 0 = Ok (self, s')
    /\ forward_masks self
         (LongT [2; 6] [1; 2; 3; 0; 0; 0; 4; 5; 6; 7; 0; 0]%Z)
         (LongT [2; 4] [1; 2; 0; 0; 3; 4; 5; 0]%Z) None None
       = Ok (Some (BoolT [2; 6] [true; true; true; false; false; false;
                                true; true; true; true; false; false]),
             Some (BoolT [2; 4] [true; true; false; false;
                                true; true; true; false])).
Proof.
  assert (H : exists self s',
             TransformerEncDec_init 10 12 8 1 2 16 (Some 0%Z) false 0
             = Ok (self, s'))
    by (apply TransformerEncDec_init_returns; left; discriminate).
  destruct H as (self & s' & H). exists self, s'. split; [exact H|].
  apply (padding_masks_derived 10 12 8 1 2 16 (Some 0%Z) false 0 self s'
           [2; 6]%nat [2; 4]%nat
           [1; 2; 3; 0; 0; 0; 4; 5; 6; 7; 0; 0]%Z [1; 2; 0; 0; 3; 4; 5; 0]%Z H).
Defined.

End NetProofs.

(** ** Further properties of the models: construction and shapes *)

Module NetExtra.
Import Net NetProofs.

(** *** Shapes through the layers *)

Lemma Linear_forward_3d l o i b n :
  Linear_forward (l, [o; i]) (FloatT [b; n; i]) = Ok (FloatT [b; n; o]).
Proof.
  unfold Linear_forward. cbn [snd split_last]. rewrite Nat.eqb_refl. reflexivity.
Qed.

Lemma LayerNorm_forward_3d d b n :
  LayerNorm_forward d (FloatT [b; n; d]) = Ok (FloatT [b; n; d]).
Proof.
  unfold LayerNorm_forward. cbn [split_last]. rewrite Nat.eqb_refl. reflexivity.
Qed.

Lemma bcast_refl a : Attn.bcast a a = a.
Proof. unfold Attn.bcast. destruct (Nat.eqb a 1); reflexivity. Qed.

Lemma bcast_ok_refl a : Attn.bcast_ok a a = true.
Proof. unfold Attn.bcast_ok. rewrite Nat.eqb_refl. reflexivity. Qed.

Lemma bcast_to_refl a : Attn.bcast_to a a = true.
Proof. unfold Attn.bcast_to. rewrite Nat.eqb_refl. reflexivity. Qed.

Lemma broadcast_rev_same r : broadcast_rev r r = Ok r.
Proof.
  induction r as [| a r IH]; [reflexivity|].
  cbn [broadcast_rev]. rewrite bcast_ok_refl, IH, bcast_refl. reflexivity.
Qed.

Lemma broadcast_shapes_same s : broadcast_shapes s s = Ok s.
Proof.
  unfold broadcast_shapes. rewrite broadcast_rev_same, rev_involutive. reflexivity.
Qed.

Lemma add_same s : add (FloatT s) (FloatT s) = Ok (FloatT s).
Proof. unfold add. cbn [tshape]. rewrite broadcast_shapes_same. reflexivity. Qed.

(** The shape computed by [Attention.forward] between the projections. *)
Lemma attention_core_shape heads c b n m dim hc mask cmask :
  dim <> 0%nat -> heads <> 0%nat ->
  (forall t, mask = Some t -> tshape t = [b; n] /\ dtype_of t = DBool) ->
  (hc = true ->
   forall t, cmask = Some t -> tshape t = [b; m] /\ dtype_of t = DBool) ->
  (hc = false -> m = n) ->
  attention_core heads c b n (FloatT [b; n; dim]) (FloatT [b; m; (dim * 2)%nat])
    hc mask cmask
  = if Nat.eqb (Nat.modulo dim heads) 0 then Ok (FloatT [b; n; dim])
    else Raise EinopsError.
Proof.
  intros Hd Hh Hmask Hcmask Hm.
  unfold attention_core. cbn [tshape split_last].
  assert (Hlt : Nat.ltb (dim * 2) 2 = false) by (apply Nat.ltb_ge; lia).
  rewrite Hlt. cbv zeta.
  assert (Hc : Nat.div (dim * 2 + 1) 2 = dim).
  { symmetry. apply (Nat.div_unique _ 2 dim 1); lia. }
  rewrite Hc. replace (dim * 2 - dim)%nat with dim by lia.
  cbn [app]. unfold split_heads. cbn [tshape].
  apply Nat.eqb_neq in Hh. rewrite Hh.
  destruct (Nat.eqb_spec (Nat.modulo dim heads) 0) as [E | E]; [|reflexivity].
  cbn [negb mbind result_bind rbind].
  assert (Hq : default_lazy (option_map tshape mask) (fun _ => [b; n]) = [b; n]).
  { destruct mask as [t |]; [cbn; apply Hmask; reflexivity | reflexivity]. }
  rewrite Hq.
  assert (Hqt : default_lazy (option_map dtype_of mask) (fun _ => DBool) = DBool).
  { destruct mask as [t |]; [cbn; apply Hmask; reflexivity | reflexivity]. }
  rewrite Hqt.
  assert (Hk : default_lazy (if negb hc then Some [b; n]
                             else option_map tshape cmask) (fun _ => [b; m])
               = [b; m]).
  { destruct hc; cbn [negb].
    - destruct cmask as [t |]; [cbn; apply Hcmask; reflexivity | reflexivity].
    - cbn. rewrite Hm by reflexivity. reflexivity. }
  rewrite Hk.
  assert (Hkt : default_lazy (if negb hc then Some DBool
                              else option_map dtype_of cmask) (fun _ => DBool)
                = DBool).
  { destruct hc; cbn [negb]; [|reflexivity].
    destruct cmask as [t |]; [cbn; apply Hcmask; reflexivity | reflexivity]. }
  rewrite Hkt. cbn [mask_2d promote fill_dtype].
  assert (Hmul : (heads * Nat.div dim heads)%nat = dim).
  { symmetry. apply Nat.Div0.div_exact. exact E. }
  rewrite !bcast_refl, !bcast_ok_refl, Hmul.
  destruct (exists_ mask || exists_ cmask);
    unfold mbind, result_bind; cbn [rbind andb];
    rewrite ?bcast_ok_refl, ?bcast_refl, ?bcast_to_refl; cbn [rbind andb];
    rewrite ?bcast_to_refl; cbn [rbind andb]; reflexivity.
Qed.


(** *** The blocks and the stacks *)

(** Running a constructor that returned: the layers of the runtime are
    unfolded, and every [nn.Dropout] has accepted its argument. *)
Ltac run_inits H :=
  cbv [mbind mret M_bind M_ret raise nn_Linear nn_LayerNorm nn_Embedding
       nn_Dropout new_param PreNorm_init PostNorm_init Residual_init
       FeedForward_init] in H;
  repeat match type of H with
         | context [Rlt_dec ?a ?b] =>
             destruct (Rlt_dec a b); cbv beta iota in H; [discriminate H|]
         end.

Ltac simpl_args :=
  cbn [bind_args zip_names add_keywords in_names existsb String.eqb Ascii.eqb
       Bool.eqb negb orb andb pos kw List.map fst snd arg passed required
       is_empty no_extras default_some exists_].

Ltac binds := unfold mbind, result_bind; cbn [rbind].

Ltac fwd :=
  repeat first
    [ rewrite LayerNorm_forward_3d | rewrite Linear_forward_3d | rewrite add_same
    | progress binds | progress simpl_args | progress cbn [tshape] ].

Lemma TransformerEncoderBlock_forward dim heads c ad fd s m s' b n mask :
  TransformerEncoderBlock_init dim heads c ad fd s = Ok (m, s') ->
  (forall t, mask = Some t -> tshape t = [b; n] /\ dtype_of t = DBool) ->
  call m (FloatT [b; n; dim]) {| pos := []; kw := [("mask", mask)] |}
  = if Nat.eqb (Nat.modulo dim 8) 0 then Ok (FloatT [b; n; dim])
    else Raise EinopsError.
Proof.
  intros H Hmask.
  unfold TransformerEncoderBlock_init, Attention_init in H.
  destruct (Nat.eqb_spec dim 0) as [E | E]; [discriminate H|].
  run_inits H. injection H as <- <-.
  cbn [call]. simpl_args. fwd.
  rewrite (attention_core_shape 8 c b n n dim false mask None)
    by (try exact E; try exact Hmask; try discriminate; reflexivity).
  destruct (Nat.eqb (Nat.modulo dim 8) 0); fwd; reflexivity.
Qed.


Lemma TransformerDecoderBlock_forward dim heads ad fd s m s' b n k mask cmask :
  TransformerDecoderBlock_init dim heads ad fd s = Ok (m, s') ->
  (forall t, mask = Some t -> tshape t = [b; n] /\ dtype_of t = DBool) ->
  (forall t, cmask = Some t -> tshape t = [b; k] /\ dtype_of t = DBool) ->
  call m (FloatT [b; n; dim])
    {| pos := [Some (FloatT [b; k; dim]); mask; cmask]; kw := [] |}
  = if Nat.eqb (Nat.modulo dim 8) 0 then Ok (FloatT [b; n; dim])
    else Raise EinopsError.
Proof.
  intros H Hmask Hcmask.
  unfold TransformerDecoderBlock_init, Attention_init in H.
  destruct (Nat.eqb_spec dim 0) as [E | E]; [discriminate H|].
  run_inits H. injection H as <- <-.
  cbn [call]. simpl_args. fwd.
  rewrite (attention_core_shape 8 true b n n dim false mask None)
    by (try exact E; try exact Hmask; try discriminate; reflexivity).
  destruct (Nat.eqb (Nat.modulo dim 8) 0) eqn:E8; fwd; [|reflexivity].
  rewrite (attention_core_shape 8 false b n k dim true mask cmask)
    by (try exact E; try exact Hmask; try (intros _; exact Hcmask);
        try discriminate).
  rewrite E8. fwd. reflexivity.
Qed.

Lemma repeatM_Forall (P : module -> Prop) (mk : M module) :
  (forall s m s', mk s = Ok (m, s') -> P m) ->
  forall depth s ls s',
    repeatM depth mk s = Ok (ls, s') -> Forall P ls /\ length ls = depth.
Proof.
  intros Hmk. induction depth as [| d IH]; intros s ls s' H; cbn [repeatM] in H.
  - injection H as <- _. split; [constructor | reflexivity].
  - step H. step H. injection H as <- _.
    destruct (IH _ _ _ E0) as [HF Hl].
    split; [constructor; [eapply Hmk; exact E | exact HF] | cbn; lia].
Qed.

Lemma encoder_stack_forward d layers x mask r :
  Forall (fun m => call m x {| pos := []; kw := [("mask", mask)] |} = r) layers ->
  (r = Ok x \/ exists e, r = Raise e) ->
  call (TransformerEncoder d layers) x {| pos := []; kw := [("mask", mask)] |}
  = match layers with [] => Ok x | _ :: _ => r end.
Proof.
  intros HF Hr. induction HF as [| l ls Hl HF IH]; [reflexivity|].
  cbn [call] in IH |- *. revert IH. fwd. intros IH.
  rewrite Hl. destruct Hr as [-> | [e ->]]; [|reflexivity].
  cbn [rbind]. rewrite IH. destruct ls; [reflexivity|].
  inversion HF; subst. reflexivity.
Qed.

Lemma decoder_stack_forward d layers x ctx mask cmask r :
  Forall (fun m => call m x {| pos := [Some ctx; mask; cmask]; kw := [] |} = r)
    layers ->
  (r = Ok x \/ exists e, r = Raise e) ->
  call (TransformerDecoder d layers) x
    {| pos := [];
       kw := [("context", Some ctx); ("mask", mask); ("context_mask", cmask)] |}
  = match layers with [] => Ok x | _ :: _ => r end.
Proof.
  intros HF Hr. induction HF as [| l ls Hl HF IH]; [reflexivity|].
  cbn [call] in IH |- *. revert IH. fwd. intros IH.
  rewrite Hl. destruct Hr as [-> | [e ->]]; [|reflexivity].
  cbn [rbind]. rewrite IH. destruct ls; [reflexivity|].
  inversion HF; subst. reflexivity.
Qed.


(** X15. A constructed [TransformerEncoder], called without a mask or with
    a boolean mask of shape (b, n), keeps the shape (b, n, dim) of its input
    when dim is a multiple of 8 or the stack is empty, and raises the
    rearrange error otherwise: the blocks build their attention with 8
    heads, whatever [heads] the stack was given. *)
Theorem encoder_forward_shape
    (dim depth heads : nat) (c : bool) (ad fd : R) (s : nat) (m : module)
    (s' b n : nat) (mask : option tensor) :
  TransformerEncoder_init dim depth heads c ad fd s = Ok (m, s') ->
  (forall t, mask = Some t -> tshape t = [b; n] /\ dtype_of t = DBool) ->
  call m (FloatT [b; n; dim]) {| pos := []; kw := [("mask", mask)] |}
  = if Nat.eqb depth 0 || Nat.eqb (Nat.modulo dim 8) 0
    then Ok (FloatT [b; n; dim]) else Raise EinopsError.
Proof.
  intros H Hmask. unfold TransformerEncoder_init in H.
  step H. injection H as <- _.
  destruct (repeatM_Forall
              (fun m => call m (FloatT [b; n; dim])
                          {| pos := []; kw := [("mask", mask)] |}
                        = if Nat.eqb (Nat.modulo dim 8) 0
                          then Ok (FloatT [b; n; dim]) else Raise EinopsError)
              (TransformerEncoderBlock_init dim heads c ad fd)
              (fun s m s' Hm =>
                 TransformerEncoderBlock_forward dim heads c ad fd s m s' b n mask
                   Hm Hmask)
              _ _ _ _ E) as [HF Hl].
  rewrite (encoder_stack_forward _ _ _ _ _ HF).
  - destruct x as [| l ls]; cbn [length] in Hl; subst depth; reflexivity.
  - destruct (Nat.eqb (Nat.modulo dim 8) 0); [left | right; eexists]; reflexivity.
Qed.

Lemma encoder_forward_shape_witness :
  exists m s',
    TransformerEncoder_init 12 1 4 false 0.1 0.1 0 = Ok (m, s')
    /\ call m (FloatT [1; 3; 12])
         {| pos := [];
            kw := [("mask", Some (BoolT [1; 3] [true; true; false]))] |}
       = Raise EinopsError.
Proof.
  assert (H : exists m s',
             TransformerEncoder_init 12 1 4 false 0.1 0.1 0 = Ok (m, s')).
  { apply TransformerEncoder_init_ok. right.
    split; [discriminate|]. split; lra. }
  destruct H as (m & s' & H). exists m, s'. split; [exact H|].
  apply (encoder_forward_shape 12 1 4 false 0.1 0.1 0 m s' 1 3
           (Some (BoolT [1; 3] [true; true; false])) H).
  intros t Ht. injection Ht as <-. split; reflexivity.
Defined.

(** X16. A constructed [TransformerDecoder], called with a context of shape
    (b, k, dim), without masks or with boolean masks of shapes (b, n) and
    (b, k), keeps the shape (b, n, dim) of its input when dim is a multiple
    of 8 or the stack is empty, and raises the rearrange error otherwise. *)
Theorem decoder_forward_shape
    (dim depth heads : nat) (ad fd : R) (s : nat) (m : module)
    (s' b n k : nat) (mask cmask : option tensor) :
  TransformerDecoder_init dim depth heads ad fd s = Ok (m, s') ->
  (forall t, mask = Some t -> tshape t = [b; n] /\ dtype_of t = DBool) ->
  (forall t, cmask = Some t -> tshape t = [b; k] /\ dtype_of t = DBool) ->
  call m (FloatT [b; n; dim])
    {| pos := [];
       kw := [("context", Some (FloatT [b; k; dim])); ("mask", mask);
              ("context_mask", cmask)] |}
  = if Nat.eqb depth 0 || Nat.eqb (Nat.modulo dim 8) 0
    then Ok (FloatT [b; n; dim]) else Raise EinopsError.
Proof.
  intros H Hmask Hcmask. unfold TransformerDecoder_init in H.
  step H. injection H as <- _.
  destruct (repeatM_Forall
              (fun m => call m (FloatT [b; n; dim])
                          {| pos := [Some (FloatT [b; k; dim]); mask; cmask];
                             kw := [] |}
                        = if Nat.eqb (Nat.modulo dim 8) 0
                          then Ok (FloatT [b; n; dim]) else Raise EinopsError)
              (TransformerDecoderBlock_init dim heads ad fd)
              (fun s m s' Hm =>
                 TransformerDecoderBlock_forward dim heads ad fd s m s' b n k
                   mask cmask Hm Hmask Hcmask)
              _ _ _ _ E) as [HF Hl].
  rewrite (decoder_stack_forward _ _ _ _ _ _ _ HF).
  - destruct x as [| l ls]; cbn [length] in Hl; subst depth; reflexivity.
  - destruct (Nat.eqb (Nat.modulo dim 8) 0); [left | right; eexists]; reflexivity.
Qed.

Lemma decoder_forward_shape_witness :
  exists m s',
    TransformerDecoder_init 8 1 2 0.1 0.1 0 = Ok (m, s')
    /\ call m (FloatT [2; 3; 8])
         {| pos := [];
            kw := [("context", Some (FloatT [2; 5; 8])); ("mask", None);
                   ("context_mask", Some (BoolT [2; 5] (List.repeat true 10)))] |}
       = Ok (FloatT [2; 3; 8]).
Proof.
  assert (H : exists m s', TransformerDecoder_init 8 1 2 0.1 0.1 0 = Ok (m, s')).
  { apply TransformerDecoder_init_ok. right.
    split; [discriminate|]. split; lra. }
  destruct H as (m & s' & H). exists m, s'. split; [exact H|].
  apply (decoder_forward_shape 8 1 2 0.1 0.1 0 m s' 2 3 5 None
           (Some (BoolT [2; 5] (List.repeat true 10))) H).
  - discriminate.
  - intros t Ht. injection Ht as <-. split; reflexivity.
Defined.


(** *** Construction: storage locations *)

Lemma TransformerEncoderBlock_init_state dim heads c ad fd s m s' :
  TransformerEncoderBlock_init dim heads c ad fd s = Ok (m, s') -> (s <= s')%nat.
Proof.
  intros H. unfold TransformerEncoderBlock_init, Attention_init in H.
  destruct (Nat.eqb dim 0); [discriminate H|].
  run_inits H. injection H as _ <-. lia.
Qed.

Lemma repeatM_state (mk : M module) :
  (forall s m s', mk s = Ok (m, s') -> (s <= s')%nat) ->
  forall depth s ls s', repeatM depth mk s = Ok (ls, s') -> (s <= s')%nat.
Proof.
  intros Hmk. induction depth as [| d IH]; intros s ls s' H; cbn [repeatM] in H.
  - injection H as _ <-. lia.
  - step H. step H. injection H as _ <-.
    apply Hmk in E. apply IH in E0. lia.
Qed.

Lemma TransformerEncoder_init_state dim depth heads c ad fd s m s' :
  TransformerEncoder_init dim depth heads c ad fd s = Ok (m, s') -> (s <= s')%nat.
Proof.
  intros H. unfold TransformerEncoder_init in H. step H. injection H as _ <-.
  eapply repeatM_state; [|exact E].
  intros s0 m0 s0'. apply TransformerEncoderBlock_init_state.
Qed.

(** X17. In a constructed [TransformerLM] the output projection has a
    weight of shape (vocab_sz, dim), and that weight is the storage of the
    token embedding table exactly when [tie_weights] is set. *)
Theorem lm_projection_tied_iff_requested
    (vocab dim depth heads : nat) (causal : bool) (msl : nat) (tie : bool)
    (ad fd ed : R) (s : nat) (self : value) (s' : nat) :
  TransformerLM_init vocab dim depth heads causal msl tie ad fd ed s = Ok (self, s') ->
  exists attrs emb_attrs q bias,
    self = VObj "TransformerLM" attrs
    /\ attrs !! "proj" = Some (VModule (Linear dim vocab q bias))
    /\ attrs !! "emb" = Some (VObj "TransformerEmbedding" emb_attrs)
    /\ emb_attrs !! "emb" = Some (VModule (Embedding vocab dim (s, [vocab; dim])))
    /\ snd q = [vocab; dim]
    /\ (fst q = s <-> tie = true).
Proof.
  unfold TransformerLM_init. intros H.
  set_step H.
  emb_step H.
  set_step H.
  step H. apply TransformerEncoder_init_state in E.
  set_step H.
  step H. rewrite nn_Linear_bias in E0. injection E0 as <- <-.
  set_step H.
  destruct tie.
  - get_step H. get_step H. get_step H. get_step H.
    step H. lifted E0. cbn [set_weight] in E0. injection E0 as <-.
    lifted H. cbn [setattr] in H. injection H as <-.
    eexists _, _, _, _. split; [reflexivity|].
    split; [apply lookup_insert_eq|].
    split; [rewrite !lookup_insert_ne by done; apply lookup_insert_eq|].
    split; [rewrite !lookup_insert_ne by done; apply lookup_insert_eq|].
    split; [reflexivity|]. cbn [fst]. split; reflexivity.
  - injection H as <- _.
    eexists _, _, _, _. split; [reflexivity|].
    split; [apply lookup_insert_eq|].
    split; [rewrite !lookup_insert_ne by done; apply lookup_insert_eq|].
    split; [rewrite !lookup_insert_ne by done; apply lookup_insert_eq|].
    split; [reflexivity|]. cbn [fst]. split; [lia | discriminate].
Qed.

Lemma lm_projection_tied_iff_requested_witness :
  exists self s' attrs emb_attrs q bias,
    TransformerLM_init 260 32 2 4 true 512 true 0.1 0.1 0.1 0 = Ok (self, s')
    /\ self = VObj "TransformerLM" attrs
    /\ attrs !! "proj" = Some (VModule (Linear 32 260 q bias))
    /\ attrs !! "emb" = Some (VObj "TransformerEmbedding" emb_attrs)
    /\ emb_attrs !! "emb" = Some (VModule (Embedding 260 32 (0%nat, [260; 32]%nat)))
    /\ snd q = [260; 32]%nat
    /\ (fst q = 0%nat <-> true = true).
Proof.
  assert (H : exists self s',
             TransformerLM_init 260 32 2 4 true 512 true 0.1 0.1 0.1 0 = Ok (self, s')).
  { apply TransformerLM_init_returns; [lra|]. right.
    split; [discriminate|]. split; lra. }
  destruct H as (self & s' & H).
  destruct (lm_projection_tied_iff_requested 260 32 2 4 true 512 true 0.1 0.1 0.1
              0 self s' H) as (attrs & emb_attrs & q & bias & R).
  exists self, s', attrs, emb_attrs, q, bias. split; [exact H | exact R].
Defined.


(** *** Construction: which configurations construct *)

Lemma TransformerEncoderBlock_init_raises dim heads c ad fd s :
  TransformerEncoderBlock_init dim heads c ad fd s
  = Raise ZeroDivisionError /\ dim = 0%nat
  \/ TransformerEncoderBlock_init dim heads c ad fd s = Raise ValueError
     /\ dim <> 0%nat /\ ((ad < 0 \/ 1 < ad)%R \/ (fd < 0 \/ 1 < fd)%R)
  \/ (exists r, TransformerEncoderBlock_init dim heads c ad fd s = Ok r)
     /\ dim <> 0%nat /\ (0 <= ad <= 1)%R /\ (0 <= fd <= 1)%R.
Proof.
  destruct (Nat.eq_dec dim 0) as [-> | Hd]; [left; split; reflexivity|].
  right. destruct (dropout_range ad) as [Ha | Ha].
  - destruct (dropout_range fd) as [Hf | Hf].
    + right. split; [| split; [exact Hd | split; [exact Ha | exact Hf]]].
      destruct (TransformerEncoderBlock_init_ok dim heads c ad fd s Hd Ha Hf)
        as (m & s1 & E).
      eexists. exact E.
    + left. split; [|split; [exact Hd | right; exact Hf]].
      unfold TransformerEncoderBlock_init.
      ok_attention Hd Ha. ok_step ltac:(reflexivity). ok_step ltac:(reflexivity).
      apply M_bind_raise_eq. unfold FeedForward_init.
      ok_step ltac:(reflexivity).
      apply M_bind_raise_eq. apply nn_Dropout_raises. exact Hf.
  - left. split; [|split; [exact Hd | left; exact Ha]].
    unfold TransformerEncoderBlock_init.
    apply M_bind_raise_eq. unfold Attention_init.
    destruct (Nat.eqb_spec dim 0); [contradiction|].
    ok_step ltac:(reflexivity). ok_step ltac:(reflexivity).
    apply M_bind_raise_eq. apply nn_Dropout_raises. exact Ha.
Qed.

(** X18. The constructor of [TransformerLM] returns exactly when
    [emb_dropout] lies in [0, 1] and, unless depth is 0, dim is not 0 and
    [attn_dropout] and [ff_dropout] lie in [0, 1].  Otherwise it raises
    [ValueError] for a dropout out of range, from [nn.Dropout], and
    [ZeroDivisionError] for dim = 0, from [dim ** -0.5] in the first
    attention; the embedding is built first and the division comes before
    the dropouts of the block. *)
Theorem lm_construction_outcome
    (vocab dim depth heads : nat) (causal : bool) (msl : nat) (tie : bool)
    (ad fd ed : R) (s : nat) :
  match TransformerLM_init vocab dim depth heads causal msl tie ad fd ed s with
  | Ok _ =>
      (0 <= ed <= 1)%R
      /\ (depth = 0%nat
          \/ (dim <> 0%nat /\ (0 <= ad <= 1)%R /\ (0 <= fd <= 1)%R))
  | Raise e =>
      (e = ValueError /\ (ed < 0 \/ 1 < ed)%R)
      \/ ((0 <= ed <= 1)%R /\ depth <> 0%nat
          /\ ((e = ZeroDivisionError /\ dim = 0%nat)
              \/ (e = ValueError /\ dim <> 0%nat
                  /\ ((ad < 0 \/ 1 < ad)%R \/ (fd < 0 \/ 1 < fd)%R))))
  end.
Proof.
  destruct (dropout_range ed) as [He | He].
  2:{ assert (E : TransformerLM_init vocab dim depth heads causal msl tie ad fd ed s
                  = Raise ValueError).
      { unfold TransformerLM_init. ok_step ltac:(reflexivity).
        apply M_bind_raise_eq. apply TransformerEmbedding_init_bad_dropout.
        exact He. }
      rewrite E. left. split; [reflexivity | exact He]. }
  destruct depth as [| d].
  { destruct (TransformerLM_init_returns vocab dim 0 heads causal msl tie ad fd ed s
                He (or_introl eq_refl)) as (self & s' & E).
    rewrite E. split; [exact He | left; reflexivity]. }
  destruct (TransformerEncoderBlock_init_raises dim heads causal ad fd (S (S s)))
    as [[E Hd] | [[E [Hd Hbad]] | [_ [Hd [Ha Hf]]]]].
  - assert (E' : TransformerLM_init vocab dim (S d) heads causal msl tie ad fd ed s
                 = Raise ZeroDivisionError).
    { unfold TransformerLM_init. ok_step ltac:(reflexivity).
      ok_step ltac:(apply TransformerEmbedding_init_absolute; exact He).
      ok_step ltac:(reflexivity).
      apply M_bind_raise_eq. unfold TransformerEncoder_init.
      apply M_bind_raise_eq. cbn [repeatM]. apply M_bind_raise_eq. exact E. }
    rewrite E'. right. split; [exact He|]. split; [discriminate|].
    left. split; [reflexivity | exact Hd].
  - assert (E' : TransformerLM_init vocab dim (S d) heads causal msl tie ad fd ed s
                 = Raise ValueError).
    { unfold TransformerLM_init. ok_step ltac:(reflexivity).
      ok_step ltac:(apply TransformerEmbedding_init_absolute; exact He).
      ok_step ltac:(reflexivity).
      apply M_bind_raise_eq. unfold TransformerEncoder_init.
      apply M_bind_raise_eq. cbn [repeatM]. apply M_bind_raise_eq. exact E. }
    rewrite E'. right. split; [exact He|]. split; [discriminate|].
    right. split; [reflexivity|]. split; [exact Hd | exact Hbad].
  - destruct (TransformerLM_init_returns vocab dim (S d) heads causal msl tie
                ad fd ed s He (or_intror (conj Hd (conj Ha Hf))))
      as (self & s' & E).
    rewrite E. split; [exact He|]. right.
    split; [exact Hd | split; [exact Ha | exact Hf]].
Qed.

(** *** The encoder-decoder model *)

Lemma TransformerEncDec_init_attrs
    enc_vocab dec_vocab dim depth heads msl pad_idx tie s self s' :
  TransformerEncDec_init enc_vocab dec_vocab dim depth heads msl pad_idx tie s
  = Ok (self, s') ->
  exists attrs enc,
    self = VObj "TransformerEncDec" attrs
    /\ attrs !! "pad_idx" = Some (VOptInt pad_idx)
    /\ attrs !! "encoder" = Some (VModule enc)
    /\ attrs !! "enc_emb"
       = Some (VObj "TransformerEmbedding"
          (<["dropout" := VModule (Dropout 0)]>
             (<["pos_enc" := VModule (AbsolutePositionalEmbedding
                                        (Embedding msl dim (S s, [msl; dim])))]>
                (<["emb" := VModule (Embedding enc_vocab dim (s, [enc_vocab; dim]))]>
                   ∅)))).
Proof.
  unfold TransformerEncDec_init. intros H.
  set_step H. set_step H.
  emb_step H.
  set_step H.
  emb_step H.
  set_step H.
  step H. set_step H.
  step H. set_step H.
  step H. rewrite nn_Linear_bias in E1. injection E1 as <- <-.
  set_step H.
  destruct tie.
  - get_step H.
  - injection H as <- _.
    eexists _, _. split; [reflexivity|].
    split; [rewrite !lookup_insert_ne by done; apply lookup_insert_eq|].
    split; [rewrite !lookup_insert_ne by done; apply lookup_insert_eq|].
    rewrite !lookup_insert_ne by done. apply lookup_insert_eq.
Qed.

(** X19. The forward pass of a constructed [TransformerEncDec] raises
    [IndexError] for every batch of source ids of its vocabulary, whatever
    the target and the masks: the source embedding passes the
    one-dimensional [torch.arange(n)] to the positional embedding, which
    reads [x.shape[1]]. *)
Theorem encdec_forward_raises_IndexError
    (enc_vocab dec_vocab dim depth heads msl : nat) (pad_idx : option Z)
    (tie : bool) (s : nat) (self : value) (s' : nat)
    (b n : nat) (sd : list Z) (tgt : tensor) (src_mask tgt_mask : option tensor) :
  TransformerEncDec_init enc_vocab dec_vocab dim depth heads msl pad_idx tie s
  = Ok (self, s') ->
  in_vocab enc_vocab sd ->
  TransformerEncDec_forward self (LongT [b; n] sd) tgt src_mask tgt_mask
  = Raise IndexError.
Proof.
  intros H Hsd.
  destruct (TransformerEncDec_init_attrs _ _ _ _ _ _ _ _ _ _ _ H)
    as (attrs & enc & -> & Hpad & Henc & Hemb).
  unfold TransformerEncDec_forward, forward_masks, get_padding_mask.
  cbn [getattr]. rewrite Hpad, Henc, Hemb.
  assert (Hf : call_v (VObj "TransformerEmbedding"
                 (<["dropout" := VModule (Dropout 0)]>
                    (<["pos_enc" := VModule (AbsolutePositionalEmbedding
                                               (Embedding msl dim (S s, [msl; dim])))]>
                       (<["emb" := VModule (Embedding enc_vocab dim
                                              (s, [enc_vocab; dim]))]> ∅))))
                 (LongT [b; n] sd) no_extras = Raise IndexError).
  { cbn [call_v String.eqb Ascii.eqb Bool.eqb is_empty no_extras pos kw andb].
    erewrite TransformerEmbedding_forward_raises; [reflexivity | | | exact Hsd].
    - rewrite !lookup_insert_ne by done. apply lookup_insert_eq.
    - rewrite lookup_insert_ne by done. apply lookup_insert_eq. }
  destruct pad_idx as [p |]; cbn [VOptInt]; binds; rewrite Hf; reflexivity.
Qed.

Lemma encdec_forward_raises_IndexError_witness :
  exists self s',
    TransformerEncDec_init 10 12 8 1 2 16 (Some 0%Z) false 0 = Ok (self, s')
    /\ TransformerEncDec_forward self
         (LongT [1; 3] [1; 2; 3]%Z) (LongT [1; 2] [4; 5]%Z) None None
       = Raise IndexError.
Proof.
  assert (H : exists self s',
             TransformerEncDec_init 10 12 8 1 2 16 (Some 0%Z) false 0 = Ok (self, s'))
    by (apply TransformerEncDec_init_returns; left; discriminate).
  destruct H as (self & s' & H). exists self, s'. split; [exact H|].
  apply (encdec_forward_raises_IndexError 10 12 8 1 2 16 (Some 0%Z) false 0
           self s' 1 3 [1; 2; 3]%Z (LongT [1; 2] [4; 5]%Z) None None H).
  repeat constructor; lia.
Defined.

(** X20. In [TransformerEncDec.forward] a mask the caller passes is used as
    it is; the padding mask [ids != pad_idx] is the fallback of a side
    without a mask, and it is [None] when no pad index is configured. *)
Theorem explicit_masks_take_precedence
    (enc_vocab dec_vocab dim depth heads msl : nat) (pad_idx : option Z)
    (tie : bool) (s : nat) (self : value) (s' : nat)
    (src tgt : tensor) (src_mask tgt_mask : option tensor) :
  TransformerEncDec_init enc_vocab dec_vocab dim depth heads msl pad_idx tie s
  = Ok (self, s') ->
  forward_masks self src tgt src_mask tgt_mask
  = Ok (match src_mask with
        | Some m => Some m
        | None => option_map (ne_scalar src) pad_idx
        end,
        match tgt_mask with
        | Some m => Some m
        | None => option_map (ne_scalar tgt) pad_idx
        end).
Proof.
  intros H.
  destruct (TransformerEncDec_init_attrs _ _ _ _ _ _ _ _ _ _ _ H)
    as (attrs & enc & -> & Hpad & _ & _).
  unfold forward_masks, get_padding_mask. cbn [getattr]. rewrite Hpad.
  destruct pad_idx as [p |], src_mask, tgt_mask; reflexivity.
Qed.

Lemma explicit_masks_take_precedence_witness :
  exists self s',
    TransformerEncDec_init 10 12 8 1 2 16 (Some 0%Z) false 0 = Ok (self, s')
    /\ forward_masks self (LongT [1; 3] [1; 0; 0]%Z) (LongT [1; 2] [4; 0]%Z)
         (Some (BoolT [1; 3] [true; true; true])) None
       = Ok (Some (BoolT [1; 3] [true; true; true]),
             Some (BoolT [1; 2] [true; false])).
Proof.
  assert (H : exists self s',
             TransformerEncDec_init 10 12 8 1 2 16 (Some 0%Z) false 0 = Ok (self, s'))
    by (apply TransformerEncDec_init_returns; left; discriminate).
  destruct H as (self & s' & H). exists self, s'. split; [exact H|].
  apply (explicit_masks_take_precedence 10 12 8 1 2 16 (Some 0%Z) false 0 self s'
           (LongT [1; 3] [1; 0; 0]%Z) (LongT [1; 2] [4; 0]%Z)
           (Some (BoolT [1; 3] [true; true; true])) None H).
Defined.

(** *** The wrappers and the positional embeddings *)

(** X21. [PostNorm.forward] hands its extra arguments to the layer norm,
    which takes none: a call with any extra positional or keyword argument
    never returns, and raises [TypeError] whenever the wrapped layer itself
    returns. *)
Theorem postnorm_rejects_extra_arguments
    (dim : nat) (fn : module) (s : nat) (m : module) (s' : nat)
    (x : tensor) (e : extras) :
  PostNorm_init dim fn s = Ok (m, s') ->
  is_empty e = false ->
  exists err,
    call m x e = Raise err
    /\ (forall y, call fn x no_extras = Ok y -> err = TypeError).
Proof.
  intros H He. run_inits H. injection H as <- _.
  cbn [call]. destruct (call fn x no_extras) as [y | err] eqn:Ef.
  - exists TypeError. binds. rewrite He. split; [reflexivity | intros; reflexivity].
  - exists err. split; [reflexivity | intros y Hy; discriminate Hy].
Qed.

Lemma postnorm_rejects_extra_arguments_witness :
  exists m s' err,
    PostNorm_init 4 GELU 0 = Ok (m, s')
    /\ call m (FloatT [1; 2; 4]) {| pos := []; kw := [("mask", None)] |} = Raise err
    /\ (forall y, call GELU (FloatT [1; 2; 4]) no_extras = Ok y -> err = TypeError).
Proof.
  assert (H : exists m s', PostNorm_init 4 GELU 0 = Ok (m, s'))
    by (eexists _, _; reflexivity).
  destruct H as (m & s' & H).
  destruct (postnorm_rejects_extra_arguments 4 GELU 0 m s' (FloatT [1; 2; 4])
              {| pos := []; kw := [("mask", None)] |} H eq_refl) as (err & R).
  exists m, s', err. split; [exact H | exact R].
Defined.

Lemma arange_in_table (num n : nat) :
  forallb (fun v => (0 <=? v)%Z && (v <? Z.of_nat num)%Z)
    (List.map Z.of_nat (seq 0 n))
  = Nat.leb n num.
Proof.
  destruct (Nat.leb_spec n num) as [Hle | Hlt].
  - apply List.forallb_forall. intros v Hv.
    apply List.in_map_iff in Hv. destruct Hv as (i & <- & Hi).
    apply List.in_seq in Hi. apply andb_true_intro.
    split; [apply Z.leb_le | apply Z.ltb_lt]; lia.
  - apply not_true_is_false. intros Hall.
    rewrite List.forallb_forall in Hall.
    specialize (Hall (Z.of_nat num)).
    assert (Hin : List.In (Z.of_nat num) (List.map Z.of_nat (seq 0 n))).
    { apply List.in_map. apply List.in_seq. lia. }
    apply Hall in Hin. apply andb_prop in Hin. destruct Hin as [_ Hin].
    apply Z.ltb_lt in Hin. lia.
Qed.

(** X22. [AbsolutePositionalEmbedding.forward] on an input whose second
    dimension is n returns a table of shape (n, dim), without batch
    dimension, when n is at most [max_seq_len], and raises [IndexError] for
    a longer sequence. *)
Theorem absolute_positions_bounded_by_max_seq_len
    (dim msl s : nat) (m : module) (s' : nat) (x : tensor) (n : nat) :
  AbsolutePositionalEmbedding_init dim msl s = Ok (m, s') ->
  nth_error (tshape x) 1 = Some n ->
  call m x no_extras
  = if Nat.leb n msl then Ok (FloatT [n; dim]) else Raise IndexError.
Proof.
  intros H Hn. unfold AbsolutePositionalEmbedding_init in H.
  run_inits H. injection H as <- _.
  cbn [call is_empty no_extras pos kw]. unfold shape_index. rewrite Hn.
  binds. unfold Embedding_forward, arange. rewrite arange_in_table.
  destruct (Nat.leb n msl); reflexivity.
Qed.

Lemma absolute_positions_bounded_by_max_seq_len_witness :
  exists m s',
    AbsolutePositionalEmbedding_init 8 4 0 = Ok (m, s')
    /\ call m (LongT [2; 5] (List.repeat 0%Z 10)) no_extras = Raise IndexError.
Proof.
  assert (H : exists m s', AbsolutePositionalEmbedding_init 8 4 0 = Ok (m, s'))
    by (eexists _, _; reflexivity).
  destruct H as (m & s' & H). exists m, s'. split; [exact H|].
  apply (absolute_positions_bounded_by_max_seq_len 8 4 0 m s'
           (LongT [2; 5] (List.repeat 0%Z 10)) 5 H).
  reflexivity.
Defined.

(** X23. [FixedPositionalEmbedding.forward] returns a table of shape
    (1, n, w) where w is dim for an even dim and dim + 1 for an odd one:
    the sine and the cosine halves have ceil(dim / 2) columns each. *)
Theorem fixed_positions_width
    (dim s : nat) (m : module) (s' : nat) (x : tensor) (n : nat) :
  FixedPositionalEmbedding_init dim s = Ok (m, s') ->
  nth_error (tshape x) 1 = Some n ->
  call m x no_extras
  = Ok (FloatT [1; n; if Nat.even dim then dim else S dim]).
Proof.
  intros H Hn. unfold FixedPositionalEmbedding_init in H.
  run_inits H. injection H as <- _.
  cbn [call is_empty no_extras pos kw]. unfold shape_index. rewrite Hn.
  binds.
  assert (Hw : (Nat.div (dim + 1) 2 + Nat.div (dim + 1) 2)%nat
               = if Nat.even dim then dim else S dim).
  { destruct (Nat.even dim) eqn:Ev.
    - apply Nat.even_spec in Ev. destruct Ev as [k ->].
      rewrite <- (Nat.div_unique (2 * k + 1) 2 k 1) by lia. lia.
    - assert (Ho : Nat.odd dim = true)
        by (rewrite <- Nat.negb_even, Ev; reflexivity).
      apply Nat.odd_spec in Ho. destruct Ho as [k ->].
      rewrite <- (Nat.div_unique (2 * k + 1 + 1) 2 (k + 1) 0) by lia. lia. }
  change (Ok (FloatT [1; n; (Nat.div (dim + 1) 2 + Nat.div (dim + 1) 2)%nat])
          = Ok (FloatT [1; n; if Nat.even dim then dim else S dim])).
  rewrite Hw. reflexivity.
Qed.

Lemma fixed_positions_width_witness :
  exists m s',
    FixedPositionalEmbedding_init 5 0 = Ok (m, s')
    /\ call m (FloatT [2; 7; 5]) no_extras = Ok (FloatT [1; 7; 6]).
Proof.
  assert (H : exists m s', FixedPositionalEmbedding_init 5 0 = Ok (m, s'))
    by (eexists _, _; reflexivity).
  destruct H as (m & s' & H). exists m, s'. split; [exact H|].
  apply (fixed_positions_width 5 0 m s' (FloatT [2; 7; 5]) 7 H).
  reflexivity.
Defined.

End NetExtra.
